(** * AxeBuilder for WebdriverIO: a shallow embedding of
      [packages/webdriverio/src/index.ts]

    The class [AxeBuilder] has two halves.  The configuration methods
    ([disableFrame], [include], [exclude], [options], [withRules],
    [withTags], [disableRules], [setLegacyMode]) mutate JavaScript objects
    and return [this]; they are modelled over an explicit object store so
    that object identity and in-place mutation are visible.  The
    asynchronous methods ([analyze], [analyzePromise], [inject],
    [runLegacy], [runPartialRecursive], [finishRun]) drive a remote browser;
    they are modelled in a state-and-exception monad over a model of the
    WebDriver session. *)

From Stdlib Require Import String Ascii List Arith Lia Bool.
From stdpp Require Import base option list strings gmap.

Open Scope string_scope.
Open Scope list_scope.

(** ** JavaScript values used by the builder *)

(** A TypeScript parameter of type [string | string[]]. *)
Inductive StringOrArray : Type :=
  | Str (s : string)
  | Arr (l : list string).

(** [Array.isArray(x) ? x : [x]] *)
Definition toArray (x : StringOrArray) : list string :=
  match x with
  | Str s => [s]
  | Arr l => l
  end.

(** A [Selector] once [include]/[exclude] have normalised it to an array. *)
Definition Selector : Type := list string.

(** [RunOptions['runOnly']] as the builder writes it. *)
Record RunOnly : Type := MkRunOnly {
  ro_type : string;
  ro_values : list string
}.

(** One entry of [RunOptions['rules']]. *)
Record RuleObject : Type := MkRuleObject {
  enabled : bool
}.

(** The [RunOptions] object of axe-core.  The builder itself only ever
    touches [runOnly] and [rules]; every other property the caller may have
    put on the object is kept in [extra]. *)
Record RunOptions : Type := MkRunOptions {
  runOnly : option RunOnly;
  rules : option (gmap string RuleObject);
  extra : gmap string string
}.

(** The object literal [{}]. *)
Definition emptyOptions : RunOptions :=
  {| runOnly := None; rules := None; extra := ∅ |}.

Definition set_runOnly (r : RunOnly) (o : RunOptions) : RunOptions :=
  {| runOnly := Some r; rules := rules o; extra := extra o |}.

Definition set_rules (m : gmap string RuleObject) (o : RunOptions) : RunOptions :=
  {| runOnly := runOnly o; rules := Some m; extra := extra o |}.

(** ** The object store *)

(** References to [AxeBuilder] instances and to [RunOptions] objects. *)
Definition ref : Type := nat.
Definition loc : Type := nat.

(** The fields of an [AxeBuilder] instance.  The field [option] of the
    source holds a reference to a [RunOptions] object; it is called
    [option_] here because [option] is taken.  The field [client] is the
    remote session, which the asynchronous methods below receive as the
    state of their monad. *)
Record AxeBuilder : Type := MkAxeBuilder {
  axeSource : string;
  includes : list Selector;
  excludes : list Selector;
  option_ : loc;
  disableFrameSelectors : list string;
  legacyMode : bool
}.

Record Store : Type := MkStore {
  builders : gmap ref AxeBuilder;
  objects : gmap loc RunOptions
}.

(** Assignment to a field of [this]. *)
Definition updateThis (this : ref) (f : AxeBuilder -> AxeBuilder) (σ : Store) : Store :=
  {| builders := alter f this (builders σ); objects := objects σ |}.

(** Assignment to a property of the object [this.option] refers to: the
    object is changed where it lives, whoever else holds a reference to it
    sees the change. *)
Definition mutateOption (this : ref) (f : RunOptions -> RunOptions) (σ : Store) : Store :=
  match builders σ !! this with
  | Some b => {| builders := builders σ; objects := alter f (option_ b) (objects σ) |}
  | None => σ
  end.

(** What [this.option] evaluates to. *)
Definition readOption (σ : Store) (this : ref) : option RunOptions :=
  b ← builders σ !! this; objects σ !! option_ b.

Definition set_includes (v : list Selector) (b : AxeBuilder) : AxeBuilder :=
  {| axeSource := axeSource b; includes := v; excludes := excludes b;
     option_ := option_ b; disableFrameSelectors := disableFrameSelectors b;
     legacyMode := legacyMode b |}.

Definition set_excludes (v : list Selector) (b : AxeBuilder) : AxeBuilder :=
  {| axeSource := axeSource b; includes := includes b; excludes := v;
     option_ := option_ b; disableFrameSelectors := disableFrameSelectors b;
     legacyMode := legacyMode b |}.

Definition set_option (v : loc) (b : AxeBuilder) : AxeBuilder :=
  {| axeSource := axeSource b; includes := includes b; excludes := excludes b;
     option_ := v; disableFrameSelectors := disableFrameSelectors b;
     legacyMode := legacyMode b |}.

Definition set_disableFrameSelectors (v : list string) (b : AxeBuilder) : AxeBuilder :=
  {| axeSource := axeSource b; includes := includes b; excludes := excludes b;
     option_ := option_ b; disableFrameSelectors := v;
     legacyMode := legacyMode b |}.

Definition set_legacyMode (v : bool) (b : AxeBuilder) : AxeBuilder :=
  {| axeSource := axeSource b; includes := includes b; excludes := excludes b;
     option_ := option_ b; disableFrameSelectors := disableFrameSelectors b;
     legacyMode := v |}.

(** ** Configuration methods

    Every method takes [this] and the store and returns the value of its
    [return] statement together with the store it leaves. *)

Section Configuration.

(** The npm package [cssesc], which escapes a string for use in CSS. *)
Variable cssesc : string -> string.

(** [this.disableFrameSelectors.push(cssesc(selector)); return this;] *)
Definition disableFrame (selector : string) (this : ref) (σ : Store) : ref * Store :=
  (this,
   updateThis this
     (fun b => set_disableFrameSelectors (disableFrameSelectors b ++ [cssesc selector]) b) σ).

(** [selector = Array.isArray(selector) ? selector : [selector];
     this.includes.push(selector); return this;] *)
Definition include (selector : StringOrArray) (this : ref) (σ : Store) : ref * Store :=
  let selector := toArray selector in
  (this, updateThis this (fun b => set_includes (includes b ++ [selector]) b) σ).

Definition exclude (selector : StringOrArray) (this : ref) (σ : Store) : ref * Store :=
  let selector := toArray selector in
  (this, updateThis this (fun b => set_excludes (excludes b ++ [selector]) b) σ).

(** [this.option = options; return this;] -- the argument is a reference:
    the builder keeps the caller's object, it does not copy it. *)
Definition options (options : loc) (this : ref) (σ : Store) : ref * Store :=
  (this, updateThis this (set_option options) σ).

(** [this.option.runOnly = { type: 'rule', values: rules }; return this;] *)
Definition withRules (rules : StringOrArray) (this : ref) (σ : Store) : ref * Store :=
  let rules := toArray rules in
  (this, mutateOption this (set_runOnly {| ro_type := "rule"; ro_values := rules |}) σ).

(** [this.option.runOnly = { type: 'tag', values: tags }; return this;] *)
Definition withTags (tags : StringOrArray) (this : ref) (σ : Store) : ref * Store :=
  let tags := toArray tags in
  (this, mutateOption this (set_runOnly {| ro_type := "tag"; ro_values := tags |}) σ).

(** [rules[rule] = { enabled: false }] on an object that started as the
    literal [{}].  The map holds the own properties of the object, which
    are what a run receives: the assignment creates or overwrites the own
    property [rule], except for the key [__proto__], on which it sets the
    prototype of the object and creates no own property. *)
Definition assignRule (m : gmap string RuleObject) (rule : string)
  : gmap string RuleObject :=
  if String.eqb rule "__proto__" then m else <[rule := {| enabled := false |}]> m.

(** [this.option.rules = {};
     for (const rule of rules) this.option.rules[rule] = { enabled: false };] *)
Definition disabledRulesObject (rules : list string) : gmap string RuleObject :=
  fold_left assignRule rules ∅.

Definition disableRules (rules : StringOrArray) (this : ref) (σ : Store) : ref * Store :=
  let rules := toArray rules in
  (this, mutateOption this (set_rules (disabledRulesObject rules)) σ).

(** [setLegacyMode(legacyMode = true)]: an omitted argument is [None]. *)
Definition setLegacyMode (legacyMode : option bool) (this : ref) (σ : Store) : ref * Store :=
  let legacyMode := default true legacyMode in
  (this, updateThis this (set_legacyMode legacyMode) σ).

(** A call of one of the configuration methods. *)
Inductive ConfigCall : Type :=
  | CallDisableFrame (selector : string)
  | CallInclude (selector : StringOrArray)
  | CallExclude (selector : StringOrArray)
  | CallOptions (o : loc)
  | CallWithRules (rules : StringOrArray)
  | CallWithTags (tags : StringOrArray)
  | CallDisableRules (rules : StringOrArray)
  | CallSetLegacyMode (legacyMode : option bool).

Definition call (c : ConfigCall) : ref -> Store -> ref * Store :=
  match c with
  | CallDisableFrame s => disableFrame s
  | CallInclude s => include s
  | CallExclude s => exclude s
  | CallOptions o => options o
  | CallWithRules r => withRules r
  | CallWithTags t => withTags t
  | CallDisableRules r => disableRules r
  | CallSetLegacyMode l => setLegacyMode l
  end.

(** A chain [b.m1(..).m2(..)...]: each method is invoked on what the
    previous one returned. *)
Fixpoint chain (cs : list ConfigCall) (this : ref) (σ : Store) : ref * Store :=
  match cs with
  | [] => (this, σ)
  | c :: cs => let '(r, σ') := call c this σ in chain cs r σ'
  end.

End Configuration.

(** ** The [script] getter *)

Definition nl : string := String (ascii_of_nat 10) EmptyString.

(** The entry of the configuration that whitelists every origin. *)
Definition allowedOrigins : string := "allowedOrigins: ['<unsafe_all_origins>'],".

(** The text of the template literal after [${this.axeSource}]. *)
Definition configureCall (legacyMode : bool) : string :=
  nl +:+ "      axe.configure({" +:+
  nl +:+ "        " +:+
  (if legacyMode then "" else allowedOrigins) +:+
  nl +:+ "        branding: { application: 'webdriverio' }" +:+
  nl +:+ "      })" +:+
  nl +:+ "      ".

Definition script (b : AxeBuilder) : string :=
  nl +:+ "      " +:+ axeSource b +:+ configureCall (legacyMode b).

(** Does [needle] occur in [hay]? *)
Fixpoint contains (needle hay : string) : bool :=
  String.prefix needle hay ||
  match hay with
  | EmptyString => false
  | String _ rest => contains needle rest
  end.

(** Does the character [c] occur in [s]? *)
Fixpoint occurs (c : ascii) (s : string) : bool :=
  match s with
  | EmptyString => false
  | String d rest => Ascii.eqb c d || occurs c rest
  end.

(** ** The remote browser *)

(** A JavaScript [Error], represented by its message. *)
Definition Error : Type := string.

(** What a command sent to the browser comes back with. *)
Inductive reply (A : Type) : Type :=
  | Returns (a : A)
  | Fails (e : Error).
Arguments Returns {A} a.
Arguments Fails {A} e.

(** An element reference returned by [$] or [$$]; within a document, the
    frame elements are the references below the number of its frames. *)
Definition Element : Type := nat.

(** A window handle. *)
Definition Handle : Type := string.

(** axe-core's [ContextObject]. *)
Record ContextObject : Type := MkContextObject {
  ctx_include : list Selector;
  ctx_exclude : list Selector
}.

(** One entry of what [axe.utils.getFrameContexts] returns. *)
Record FrameContext : Type := MkFrameContext {
  fc_frameSelector : string;
  fc_frameContext : ContextObject
}.

(** A partial result and the final report are opaque to the builder. *)
Definition PartialResult : Type := string.
Definition PartialResults : Type := list (option PartialResult).
Definition AxeResults : Type := string.

(** A document in a browsing context, with the documents of its frames.
    Each field says how the document answers one kind of command; the page
    does not change while it is analysed. *)
#[warnings="-register-all"]
Inductive Frame : Type := MkFrame {
  (** [axeSourceInject(client, source)]: run [source], report whether
      [axe.runPartial] exists *)
  f_sourceInject : string -> reply bool;
  (** [client.execute(script)] *)
  f_execute : string -> reply unit;
  (** [axeGetFrameContext(client, context)] *)
  f_getFrameContext : ContextObject -> reply (list FrameContext);
  (** [axeRunPartial(client, context, options)] *)
  f_runPartial : ContextObject -> RunOptions -> reply PartialResult;
  (** [axeRunLegacy(client, context, options)] *)
  f_runLegacy : ContextObject -> RunOptions -> reply AxeResults;
  (** [axeFinishRun(client, axeSource, partials, options)] *)
  f_finishRun : string -> PartialResults -> RunOptions -> reply AxeResults;
  (** [client.$(selector)]; [None] is a falsy answer *)
  f_find : string -> reply (option Element);
  (** [client.$$(selector)] *)
  f_findAll : string -> reply (list Element);
  (** [element.isExisting()] *)
  f_isExisting : Element -> reply bool;
  (** [client.switchToParentFrame()], sent while this document is the
      current one *)
  f_switchToParentFrame : reply unit;
  (** the documents of the frame elements, by element reference *)
  f_frames : list Frame
}.

(** The part of the session that the commands do not change. *)
Record Driver : Type := MkDriver {
  (** the document each window shows *)
  pages : Handle -> Frame;
  (** the answer to [createWindow('tab')]: the [handle] property, if any *)
  newWindow : reply (option Handle);
  (** whether the driver manages to focus an open window *)
  focus : Handle -> reply unit;
  (** [client.url(u)] in a window *)
  navigate : Handle -> string -> reply unit
}.

(** The commands the builder sends, as the session records them. *)
Inductive Command : Type :=
  | CSourceInject (source : string)
  | CExecute (script : string)
  | CGetFrameContext (context : ContextObject)
  | CRunPartial (context : ContextObject) (options : RunOptions)
  | CRunLegacy (context : ContextObject) (options : RunOptions)
  | CFinishRun (source : string) (partials : PartialResults) (options : RunOptions)
  | CFind (selector : string)
  | CFindAll (selector : string)
  | CIsExisting (e : Element)
  | CSwitchToFrame (e : Element)
  | CSwitchToParentFrame
  | CGetWindowHandle
  | CCreateWindow (kind : string)
  | CSwitchToWindow (h : Handle)
  | CUrl (u : string)
  | CCloseWindow.

(** The state of the WebDriver session. *)
Record Browser : Type := MkBrowser {
  driver : Driver;
  (** the active window *)
  window : Handle;
  (** the open windows *)
  opened : list Handle;
  (** the browsing context: the frames entered from the top-level document
      of the active window, innermost first *)
  browsingContext : list (Element * Frame);
  (** the commands received so far, oldest first *)
  history : list Command
}.

(** The document commands currently apply to. *)
Definition currentFrame (s : Browser) : Frame :=
  match browsingContext s with
  | (_, F) :: _ => F
  | [] => pages (driver s) (window s)
  end.

(** Where the browsing context is: the frame elements entered, innermost
    first; [[]] is the top-level document. *)
Definition path (s : Browser) : list Element := map fst (browsingContext s).

Definition record (c : Command) (s : Browser) : Browser :=
  {| driver := driver s; window := window s; opened := opened s;
     browsingContext := browsingContext s; history := history s ++ [c] |}.

Definition set_browsingContext (k : list (Element * Frame)) (s : Browser) : Browser :=
  {| driver := driver s; window := window s; opened := opened s;
     browsingContext := k; history := history s |}.

Definition set_window (h : Handle) (s : Browser) : Browser :=
  {| driver := driver s; window := h; opened := opened s;
     browsingContext := []; history := history s |}.

Definition set_opened (hs : list Handle) (s : Browser) : Browser :=
  {| driver := driver s; window := window s; opened := hs;
     browsingContext := browsingContext s; history := history s |}.

(** ** The monad of the asynchronous methods

    An [async] method awaits one command after the other, so it is a
    function of the session state; it returns, throws, or (in the model
    only) runs out of recursion depth. *)

Inductive result (A : Type) : Type :=
  | Ok (a : A)
  | Throw (e : Error)
  | OutOfFuel.
Arguments Ok {A} a.
Arguments Throw {A} e.
Arguments OutOfFuel {A}.

Definition M (A : Type) : Type := Browser -> result A * Browser.

Definition ret {A} (a : A) : M A := fun s => (Ok a, s).

Definition bind {A B} (m : M A) (k : A -> M B) : M B :=
  fun s =>
    match m s with
    | (Ok a, s') => k a s'
    | (Throw e, s') => (Throw e, s')
    | (OutOfFuel, s') => (OutOfFuel, s')
    end.

Definition throw {A} (e : Error) : M A := fun s => (Throw e, s).

Definition outOfFuel {A} : M A := fun s => (OutOfFuel, s).

(** [try { m } catch (error) { h(error) }] *)
Definition tryCatch {A} (m : M A) (h : Error -> M A) : M A :=
  fun s =>
    match m s with
    | (Throw e, s') => h e s'
    | r => r
    end.

Notation "x <- m ;; k" := (bind m (fun x => k))
  (at level 100, m at next level, right associativity).
Notation "m ;; k" := (bind m (fun _ => k))
  (at level 100, right associativity).

(** [for (const x of xs) { body }], the body working on an accumulator. *)
Fixpoint forEach {A B} (xs : list A) (acc : B) (body : B -> A -> M B) : M B :=
  match xs with
  | [] => ret acc
  | x :: xs => acc' <- body acc x ;; forEach xs acc' body
  end.

Definition liftReply {A} (r : reply A) : result A :=
  match r with
  | Returns a => Ok a
  | Fails e => Throw e
  end.

(** A command answered by the current document. *)
Definition ask {A} (c : Command) (q : Frame -> reply A) : M A :=
  fun s => (liftReply (q (currentFrame s)), record c s).

(** [assert(value, message)] on a value that may be [undefined] or [null]
    ([None]); [truthy] says which of the other values JavaScript takes for
    true.  The value is handed on when the assertion holds. *)
Definition assert {A} (truthy : A -> bool) (value : option A) (message : string) : M A :=
  match value with
  | Some a => if truthy a then ret a else throw message
  | None => throw message
  end.

(** ** Commands of the WebdriverIO client *)

(** [client.execute(script)] *)
Definition execute (script : string) : M unit :=
  ask (CExecute script) (fun F => f_execute F script).

(** [client.$(selector)] *)
Definition find (selector : string) : M (option Element) :=
  ask (CFind selector) (fun F => f_find F selector).

(** [client.$$(selector)] *)
Definition findAll (selector : string) : M (list Element) :=
  ask (CFindAll selector) (fun F => f_findAll F selector).

(** [element.isExisting()] *)
Definition isExisting (e : Element) : M bool :=
  ask (CIsExisting e) (fun F => f_isExisting F e).

(** [client.switchToFrame(element)]: enters the document of a frame element
    of the current document, and fails on anything else. *)
Definition switchToFrame (e : Element) : M unit :=
  fun s =>
    let s := record (CSwitchToFrame e) s in
    match f_frames (currentFrame s) !! e with
    | Some F => (Ok tt, set_browsingContext ((e, F) :: browsingContext s) s)
    | None => (Throw "no such frame", s)
    end.

(** [client.switchToParentFrame()]: one level up; at the top-level document
    the command changes nothing.  When the driver refuses the command, the
    browsing context stays where it is. *)
Definition switchToParentFrame : M unit :=
  fun s =>
    let s := record CSwitchToParentFrame s in
    match f_switchToParentFrame (currentFrame s) with
    | Returns _ => (Ok tt, set_browsingContext (tail (browsingContext s)) s)
    | Fails e => (Throw e, s)
    end.

(** [client.getWindowHandle()]; taken never to fail, as is [closeWindow]. *)
Definition getWindowHandle : M Handle :=
  fun s => (Ok (window s), record CGetWindowHandle s).

(** [client.createWindow(kind)]; the result is the [handle] property of the
    object returned.  The new window is opened, not focused. *)
Definition createWindow (kind : string) : M (option Handle) :=
  fun s =>
    let s := record (CCreateWindow kind) s in
    match newWindow (driver s) with
    | Returns (Some h) => (Ok (Some h), set_opened (opened s ++ [h]) s)
    | Returns None => (Ok None, s)
    | Fails e => (Throw e, s)
    end.

(** [client.switchToWindow(handle)]; the browsing context becomes the
    top-level document of that window. *)
Definition switchToWindow (h : Handle) : M unit :=
  fun s =>
    let s := record (CSwitchToWindow h) s in
    if bool_decide (h ∈ opened s) then
      match focus (driver s) h with
      | Returns _ => (Ok tt, set_window h s)
      | Fails e => (Throw e, s)
      end
    else (Throw "no such window", s).

(** [client.url(u)] *)
Definition url (u : string) : M unit :=
  fun s =>
    let s := record (CUrl u) s in
    (liftReply (navigate (driver s) (window s) u), set_browsingContext [] s).

(** [client.closeWindow()]: closes the active window. *)
Definition closeWindow : M unit :=
  fun s =>
    let s := record CCloseWindow s in
    (Ok tt, set_opened (filter (fun h => h ≠ window s) (opened s)) s).

(** ** The helpers of [./utils] that run a script in the page

    The module [./utils] is not among the sources.  Its helpers that run a
    script in the page are modelled as commands answered by the current
    document; [normalizeContext] and [logOrRethrowError], which do not touch
    the browser, are parameters of the methods that call them. *)

(** Modelled from the spec: [axeSourceInject] of [./utils] -- "inject engine
    into top frame and probe partial-run support": the source is run in the
    current frame and the answer says whether partial runs exist. *)
Definition axeSourceInject (source : string) : M bool :=
  ask (CSourceInject source) (fun F => f_sourceInject F source).

(** Modelled from the spec: [axeGetFrameContext] of [./utils] -- "a
    frame-context discovery call returning FrameContext entries for a given
    ScanContext". *)
Definition axeGetFrameContext (context : ContextObject) : M (list FrameContext) :=
  ask (CGetFrameContext context) (fun F => f_getFrameContext F context).

(** Modelled from the spec: [axeRunPartial] of [./utils] -- "a partial-run
    call returning one PartialResult for the current frame". *)
Definition axeRunPartial (context : ContextObject) (options : RunOptions) : M PartialResult :=
  ask (CRunPartial context options) (fun F => f_runPartial F context options).

(** Modelled from the spec: [axeFinishRun] of [./utils] -- "a finish/merge
    call taking engine source + RunOptions + the full PartialResult
    sequence, returning the final report". *)
Definition axeFinishRun (source : string) (partials : PartialResults) (options : RunOptions)
  : M AxeResults :=
  ask (CFinishRun source partials options) (fun F => f_finishRun F source partials options).

(** Modelled from the spec: [axeRunLegacy] of [./utils] -- "a single-shot
    run call (legacy path) taking a ScanContext and RunOptions, returning
    the final report directly". *)
Definition axeRunLegacy (context : ContextObject) (options : RunOptions) : M AxeResults :=
  ask (CRunLegacy context options) (fun F => f_runLegacy F context options).

(** ** The asynchronous methods *)

Definition dq : string := String (ascii_of_nat 34) EmptyString.

(** [iframeSelector()] and [frameSelector()] *)
Definition notDisabled (selector : string) (disabled : list string) : string :=
  fold_left (fun selector disableFrameSelector =>
               selector +:+ ":not(" +:+ disableFrameSelector +:+ ")")
            disabled selector.

Definition iframeSelector (b : AxeBuilder) : string :=
  notDisabled "iframe" (disableFrameSelectors b).

Definition frameSelector (b : AxeBuilder) : string :=
  notDisabled "frame" (disableFrameSelectors b).

(** [setBrowsingContext(id = null)] *)
Definition setBrowsingContext (id : option Element) : M unit :=
  match id with
  | Some id => switchToFrame id
  | None => switchToParentFrame
  end.

Definition troubleshooting : string :=
  nl +:+ " Please check out https://github.com/dequelabs/axe-core-npm/blob/develop/packages/webdriverio/error-handling.md".

Definition switchToWindowFailed : string :=
  "switchToWindow failed. Are you using updated browser drivers? " +:+ nl +:+
  "Driver reported:" +:+ nl.

(** JavaScript truthiness of a string: the empty string is falsy. *)
Definition truthyHandle (h : Handle) : bool := negb (String.eqb h "").

(** The promise [analyze] returns, once nothing is left to run; a promise
    resolved without a value is [Fulfilled None]. *)
Inductive PromiseState : Type :=
  | Pending
  | Fulfilled (value : option AxeResults)
  | Rejected (err : Error).

(** A [CallbackFunction]; calling it may throw. *)
Definition CallbackFunction : Type :=
  option string -> option AxeResults -> reply unit.

(** What a call of [analyze] leaves behind: the state of the promise and
    the calls the callback received, oldest first. *)
Record Settlement : Type := MkSettlement {
  promise : PromiseState;
  calls : list (option string * option AxeResults)
}.

Section Analysis.

(** [normalizeContext] and [logOrRethrowError] of [./utils]. *)
Variable normalizeContext : list Selector -> list Selector -> list string -> ContextObject.
Variable logOrRethrowError : Error -> reply unit.

(** The fields of [this], and the object [this.option] refers to. *)
Variable b : AxeBuilder.
Variable thisOption : RunOptions.

(** [inject(browsingContext = null)] *)
Fixpoint inject (fuel : nat) (browsingContext : option Element) : M unit :=
  match fuel with
  | 0 => outOfFuel
  | S fuel =>
    setBrowsingContext browsingContext ;;
    execute (script b) ;;
    frames <- findAll (frameSelector b) ;;
    more <- findAll (iframeSelector b) ;;
    let iframes := frames ++ more in
    if Nat.eqb (length iframes) 0 then ret tt
    else
      forEach iframes tt (fun _ iframe =>
        tryCatch
          (existing <- isExisting iframe ;;
           if negb existing then ret tt
           else
             inject fuel (Some iframe) ;;
             switchToParentFrame)
          (fun error => fun s => (liftReply (logOrRethrowError error), s)))
  end.

(** [runLegacy(context)] *)
Definition runLegacy (fuel : nat) (context : ContextObject) : M AxeResults :=
  inject fuel None ;;
  axeRunLegacy context thisOption.

(** Lines 294-298, the statements of the [try] block up to the recursive
    call; [recurse] is [this.runPartialRecursive]. *)
Definition scanChild (recurse : ContextObject -> M PartialResults) (fc : FrameContext)
  : M PartialResults :=
  frame <- find (fc_frameSelector fc) ;;
  frame <- assert (fun _ => true) frame
             ("Expect frame of " +:+ dq +:+ fc_frameSelector fc +:+ dq +:+ " to be defined") ;;
  switchToFrame frame ;;
  axeSourceInject (script b) ;;
  recurse (fc_frameContext fc).

(** Lines 293-302, the body of the [for] loop. *)
Definition collectChild (recurse : ContextObject -> M PartialResults)
    (partials : PartialResults) (fc : FrameContext) : M PartialResults :=
  tryCatch
    (sub <- scanChild recurse fc ;;
     ret (partials ++ sub))
    (fun error =>
       let partials := partials ++ [None] in
       switchToParentFrame ;;
       ret partials).

(** [runPartialRecursive(context)] *)
Fixpoint runPartialRecursive (fuel : nat) (context : ContextObject) : M PartialResults :=
  match fuel with
  | 0 => outOfFuel
  | S fuel =>
    frameContexts <- axeGetFrameContext context ;;
    own <- axeRunPartial context thisOption ;;
    partials <- forEach frameContexts [Some own] (collectChild (runPartialRecursive fuel)) ;;
    switchToParentFrame ;;
    ret partials
  end.

(** [finishRun(partials)] *)
Definition finishRun (partials : PartialResults) : M AxeResults :=
  win <- getWindowHandle ;;
  newWindow <- createWindow "tab" ;;
  handle <- assert truthyHandle newWindow
              "Please make sure that you have popup blockers disabled." ;;
  tryCatch
    (switchToWindow handle ;;
     url "about:blank")
    (fun error => throw (switchToWindowFailed +:+ error)) ;;
  res <- axeFinishRun (axeSource b) partials thisOption ;;
  closeWindow ;;
  switchToWindow win ;;
  ret res.

(** [analyzePromise()] *)
Definition analyzePromise (fuel : nat) : M AxeResults :=
  let context :=
    normalizeContext (includes b) (excludes b) (disableFrameSelectors b) in
  runPartialSupported <- axeSourceInject (axeSource b) ;;
  if negb runPartialSupported || legacyMode b then
    runLegacy fuel context
  else
    partials <- runPartialRecursive fuel context ;;
    tryCatch
      (finishRun partials)
      (fun error => throw (error +:+ troubleshooting)).

(** The handler passed to [.catch]: with a callback, the error goes to
    the callback and neither [resolve] nor [reject] is called; what the
    callback may throw here rejects only the promise of the [.catch]
    itself. *)
Definition onRejected (callback : option CallbackFunction) (err : Error)
    (calls : list (option string * option AxeResults)) : Settlement :=
  match callback with
  | Some _ => {| promise := Pending; calls := calls ++ [(Some err, None)] |}
  | None => {| promise := Rejected err; calls := calls |}
  end.

(** The handler passed to [.then]; an exception of the callback skips
    [resolve(results)] and reaches the [.catch] that follows. *)
Definition onFulfilled (callback : option CallbackFunction) (results : AxeResults)
  : Settlement :=
  match callback with
  | Some cb =>
    match cb None (Some results) with
    | Returns _ =>
      {| promise := Fulfilled (Some results); calls := [(None, Some results)] |}
    | Fails err => onRejected callback err [(None, Some results)]
    end
  | None => {| promise := Fulfilled (Some results); calls := [] |}
  end.

(** [analyze(callback?)]; [None] when the model runs out of fuel. *)
Definition analyze (fuel : nat) (callback : option CallbackFunction) (s : Browser)
  : option (Settlement * Browser) :=
  match analyzePromise fuel s with
  | (Ok results, s') => Some (onFulfilled callback results, s')
  | (Throw err, s') => Some (onRejected callback err [], s')
  | (OutOfFuel, _) => None
  end.

End Analysis.

(** A method call [builder.analyze(callback)]: the fields of the builder and
    the object behind [this.option] are read from the store as they are at
    the time of the call. *)
Definition analyzeMethod
    (normalizeContext : list Selector -> list Selector -> list string -> ContextObject)
    (logOrRethrowError : Error -> reply unit)
    (σ : Store) (this : ref) (fuel : nat) (callback : option CallbackFunction)
    (s : Browser) : option (Settlement * Browser) :=
  b ← builders σ !! this;
  o ← objects σ !! option_ b;
  analyze normalizeContext logOrRethrowError b o fuel callback s.

(** ** Notions used to state the properties *)

(** The scan context [analyzePromise] builds from the selectors accumulated
    on the builder. *)
Definition builderContext
    (normalizeContext : list Selector -> list Selector -> list string -> ContextObject)
    (b : AxeBuilder) : ContextObject :=
  normalizeContext (includes b) (excludes b) (disableFrameSelectors b).

(** What a configuration call does to the object behind [this.option]. *)
Definition objectEffect (c : ConfigCall) : RunOptions -> RunOptions :=
  match c with
  | CallWithRules rules => set_runOnly {| ro_type := "rule"; ro_values := toArray rules |}
  | CallWithTags tags => set_runOnly {| ro_type := "tag"; ro_values := toArray tags |}
  | CallDisableRules rules => set_rules (disabledRulesObject (toArray rules))
  | _ => fun o => o
  end.

(** What a chain of configuration calls does to that object. *)
Definition applyEffects (cs : list ConfigCall) (o : RunOptions) : RunOptions :=
  fold_left (fun o c => objectEffect c o) cs o.

(** What a configuration call does to the fields of [this]. *)
Definition fieldEffect (cssesc : string -> string) (c : ConfigCall)
  : AxeBuilder -> AxeBuilder :=
  match c with
  | CallDisableFrame selector =>
    fun b => set_disableFrameSelectors (disableFrameSelectors b ++ [cssesc selector]) b
  | CallInclude selector => fun b => set_includes (includes b ++ [toArray selector]) b
  | CallExclude selector => fun b => set_excludes (excludes b ++ [toArray selector]) b
  | CallOptions o => set_option o
  | CallSetLegacyMode legacyMode => set_legacyMode (default true legacyMode)
  | _ => fun b => b
  end.

Definition isOptionsCall (c : ConfigCall) : bool :=
  match c with
  | CallOptions _ => true
  | _ => false
  end.

(** A call of [withRules] or of [withTags], and the selection it asks for. *)
Inductive SelectionCall : Type :=
  | SelectRules (rules : StringOrArray)
  | SelectTags (tags : StringOrArray).

Definition asCall (c : SelectionCall) : ConfigCall :=
  match c with
  | SelectRules rules => CallWithRules rules
  | SelectTags tags => CallWithTags tags
  end.

Definition selectionOf (c : SelectionCall) : RunOnly :=
  match c with
  | SelectRules rules => {| ro_type := "rule"; ro_values := toArray rules |}
  | SelectTags tags => {| ro_type := "tag"; ro_values := toArray tags |}
  end.

(** *** The listing the specification asks for

    From the specification, to be compared with [runPartialRecursive]: the
    sequence has "one entry per frame that was attempted (self + all
    descendants in pre-order), where unreachable/failed frames contribute
    exactly one null placeholder each and otherwise contribute their own
    subtree's full result count".  The listing is read off the frame tree
    alone: no browsing context is involved. *)

(** What the frame context [fc] reported in the document [F] contributes:
    the listing of the document of the frame it names, or one [null] when
    the frame cannot be found or entered, the script cannot be injected
    there, or the scan of that document fails. *)
Definition specContribution (b : AxeBuilder)
    (listing : ContextObject -> Frame -> result PartialResults)
    (F : Frame) (fc : FrameContext) : result PartialResults :=
  match f_find F (fc_frameSelector fc) with
  | Returns (Some e) =>
    match f_frames F !! e with
    | Some child =>
      match f_sourceInject child (script b) with
      | Returns _ =>
        match listing (fc_frameContext fc) child with
        | Throw _ => Ok [None]
        | r => r
        end
      | Fails _ => Ok [None]
      end
    | None => Ok [None]
    end
  | _ => Ok [None]
  end.

(** The contributions of the frame contexts, in discovery order. *)
Fixpoint specContributions (fcs : list FrameContext)
    (contribution : FrameContext -> result PartialResults) : result PartialResults :=
  match fcs with
  | [] => Ok []
  | fc :: fcs =>
    match contribution fc with
    | Ok sub =>
      match specContributions fcs contribution with
      | Ok rest => Ok (sub ++ rest)
      | r => r
      end
    | r => r
    end
  end.

(** The pre-order listing of the frame tree below the document [F]: its
    own partial result, then the contributions of its frame contexts.  The
    scan of [F] itself fails when one of its two scripts does; [depth]
    bounds the depth of the tree looked at. *)
Fixpoint specPreorder (b : AxeBuilder) (o : RunOptions) (depth : nat)
    (context : ContextObject) (F : Frame) : result PartialResults :=
  match depth with
  | 0 => OutOfFuel
  | S depth =>
    match f_getFrameContext F context with
    | Returns fcs =>
      match f_runPartial F context o with
      | Returns own =>
        match specContributions fcs (specContribution b (specPreorder b o depth) F) with
        | Ok rest => Ok (Some own :: rest)
        | r => r
        end
      | Fails e => Throw e
      end
    | Fails e => Throw e
    end
  end.

(** A document that can be left for its parent and all of whose frame
    contexts, whatever scan context they are asked for, name a frame
    element that can be entered, and so on for the documents of these
    frames, down to depth [n]. *)
Fixpoint reachableWithin (n : nat) (F : Frame) : Prop :=
  match n with
  | 0 => False
  | S n =>
    f_switchToParentFrame F = Returns tt /\
    forall context fcs,
      f_getFrameContext F context = Returns fcs ->
      Forall (fun fc =>
                exists e child,
                  f_find F (fc_frameSelector fc) = Returns (Some e) /\
                  f_frames F !! e = Some child /\
                  reachableWithin n child) fcs
  end.

(** [m2] does what [m1] does wherever [m1] does not run out of fuel. *)
Definition refines {A} (m1 m2 : M A) : Prop :=
  forall s r s', m1 s = (r, s') -> r <> OutOfFuel -> m2 s = (r, s').

(** The commands in between were addressed to frames: the windows are as
    they were. *)
Definition sameSession (s s' : Browser) : Prop :=
  driver s' = driver s /\ window s' = window s /\ opened s' = opened s.

(** Where a call of [runPartialRecursive] made in [s] should leave the
    browsing context: one level up when it returns, so that its caller is
    back in its own frame, and untouched when it throws, the caller's
    [catch] block going up. *)
Definition landed {A} (r : result A) (s s' : Browser) : Prop :=
  match r with
  | Ok _ => browsingContext s' = tail (browsingContext s)
  | Throw _ => browsingContext s' = browsingContext s
  | OutOfFuel => False
  end.

(** [s'] has received the commands of [s] and then [cs]. *)
Definition extends (s : Browser) (cs : list Command) (s' : Browser) : Prop :=
  history s' = history s ++ cs.

(** A command that takes run options takes [o]. *)
Definition carries (o : RunOptions) (c : Command) : Prop :=
  match c with
  | CRunPartial _ o' | CRunLegacy _ o' | CFinishRun _ _ o' => o' = o
  | _ => True
  end.

(** A command that is no run of the engine: neither a partial run, nor the
    whole-document run of the legacy path, nor the merge. *)
Definition takesNoOptions (c : Command) : Prop :=
  match c with
  | CRunPartial _ _ | CRunLegacy _ _ | CFinishRun _ _ _ => False
  | _ => True
  end.

(** [m] only adds commands to the history, all of them satisfying [P]. *)
Definition issues (P : Command -> Prop) {A} (m : M A) : Prop :=
  forall s, exists cs, extends s cs (snd (m s)) /\ Forall P cs.

(** ** Sample pages *)

Definition anyContext : ContextObject := {| ctx_include := []; ctx_exclude := [] |}.

Fixpoint lookupTable (t : list (string * Element)) (selector : string)
  : reply (option Element) :=
  match t with
  | [] => Fails "no such element"
  | (k, e) :: t => if String.eqb k selector then Returns (Some e) else lookupTable t selector
  end.

(** A document on which every script runs; [name] is its partial result,
    [fcs] the frame contexts the engine reports, [table] the elements [$]
    finds and [kids] the documents of its frames. *)
Definition document (name : string) (fcs : list FrameContext)
    (table : list (string * Element)) (kids : list Frame) : Frame :=
  {| f_sourceInject := fun _ => Returns true;
     f_execute := fun _ => Returns tt;
     f_getFrameContext := fun _ => Returns fcs;
     f_runPartial := fun _ _ => Returns name;
     f_runLegacy := fun _ _ => Returns ("legacy " +:+ name);
     f_finishRun := fun _ _ _ => Returns "report";
     f_find := lookupTable table;
     f_findAll := fun selector =>
       Returns (if String.prefix "iframe" selector then seq 0 (length kids) else []);
     f_isExisting := fun _ => Returns true;
     f_switchToParentFrame := Returns tt;
     f_frames := kids |}.

Definition frameContextOf (selector : string) : FrameContext :=
  {| fc_frameSelector := selector; fc_frameContext := anyContext |}.

(** A page with frames [#a] and [#d]; [#a] holds frames [#b] and [#c]; the
    engine in [#b] reports a frame [#gone] that is no longer in the
    document. *)
Definition docB : Frame := document "B" [frameContextOf "#gone"] [] [].
Definition docC : Frame := document "C" [] [] [].
Definition docD : Frame := document "D" [] [] [].
Definition docA : Frame :=
  document "A" [frameContextOf "#b"; frameContextOf "#c"] [("#b", 0); ("#c", 1)] [docB; docC].
Definition docTop : Frame :=
  document "T" [frameContextOf "#a"; frameContextOf "#d"] [("#a", 0); ("#d", 1)] [docA; docD].

(** The same page without the stale frame context. *)
Definition docB' : Frame := document "B" [] [] [].
Definition docA' : Frame :=
  document "A" [frameContextOf "#b"; frameContextOf "#c"] [("#b", 0); ("#c", 1)] [docB'; docC].
Definition docTop' : Frame :=
  document "T" [frameContextOf "#a"; frameContextOf "#d"] [("#a", 0); ("#d", 1)] [docA'; docD].

(** A page on which the top-level document and the document of [#a] both
    have a frame [#c], and the engine in [#b], inside [#a], reports the
    stale frame context. *)
Definition docK : Frame := document "K" [] [] [].
Definition docCt : Frame := document "Ct" [frameContextOf "#k"] [("#k", 0)] [docK].
Definition docCa : Frame := document "Ca" [] [] [].
Definition docA2 : Frame :=
  document "A" [frameContextOf "#b"; frameContextOf "#c"] [("#b", 0); ("#c", 1)] [docB; docCa].
Definition docTop2 : Frame :=
  document "T" [frameContextOf "#a"; frameContextOf "#c"] [("#a", 0); ("#c", 1)] [docA2; docCt].

(** The document [F] once the driver refuses to leave it for its parent,
    as it does when an alert has come up there. *)
Definition cannotLeave (e : Error) (F : Frame) : Frame :=
  {| f_sourceInject := f_sourceInject F;
     f_execute := f_execute F;
     f_getFrameContext := f_getFrameContext F;
     f_runPartial := f_runPartial F;
     f_runLegacy := f_runLegacy F;
     f_finishRun := f_finishRun F;
     f_find := f_find F;
     f_findAll := f_findAll F;
     f_isExisting := f_isExisting F;
     f_switchToParentFrame := Fails e;
     f_frames := f_frames F |}.

(** A page with one frame, [#s], that cannot be left. *)
Definition docS : Frame := cannotLeave "unexpected alert open" (document "S" [] [] []).
Definition docTopS : Frame := document "T" [frameContextOf "#s"] [("#s", 0)] [docS].

(** The blank page of a new tab, and one on which [axe.finishRun] throws. *)
Definition docBlank : Frame := document "blank" [] [] [].

Definition docBlankFailing : Frame :=
  {| f_sourceInject := fun _ => Returns true;
     f_execute := fun _ => Returns tt;
     f_getFrameContext := fun _ => Returns [];
     f_runPartial := fun _ _ => Returns "blank";
     f_runLegacy := fun _ _ => Returns "legacy blank";
     f_finishRun := fun _ _ _ => Fails "finishRun failed";
     f_find := lookupTable [];
     f_findAll := fun _ => Returns [];
     f_isExisting := fun _ => Returns true;
     f_switchToParentFrame := Returns tt;
     f_frames := [] |}.

(** A document on which the engine cannot be loaded. *)
Definition docBroken : Frame :=
  {| f_sourceInject := fun _ => Fails "script error";
     f_execute := fun _ => Fails "script error";
     f_getFrameContext := fun _ => Fails "axe is not defined";
     f_runPartial := fun _ _ => Fails "axe is not defined";
     f_runLegacy := fun _ _ => Fails "axe is not defined";
     f_finishRun := fun _ _ _ => Fails "axe is not defined";
     f_find := lookupTable [];
     f_findAll := fun _ => Returns [];
     f_isExisting := fun _ => Returns true;
     f_switchToParentFrame := Returns tt;
     f_frames := [] |}.

(** A session with window [w0] showing [top]; a new tab gets handle [w1]
    and shows [blank]. *)
Definition sampleDriver (top blank : Frame) : Driver :=
  {| pages := fun h => if String.eqb h "w0" then top else blank;
     newWindow := Returns (Some "w1");
     focus := fun _ => Returns tt;
     navigate := fun _ _ => Returns tt |}.

Definition sampleSession (top blank : Frame) : Browser :=
  {| driver := sampleDriver top blank; window := "w0"; opened := ["w0"];
     browsingContext := []; history := [] |}.

(** The session of the sample page after [#a] and, inside it, [#b] have been
    entered, as it is when [runPartialRecursive] is called for [#b]. *)
Definition sessionInB : Browser :=
  set_browsingContext [(0, docB); (0, docA)] (sampleSession docTop docBlank).

Definition sampleBuilder : AxeBuilder :=
  {| axeSource := "axe"; includes := []; excludes := []; option_ := 0;
     disableFrameSelectors := []; legacyMode := false |}.

Definition sampleStore : Store :=
  {| builders := {[ 0 := sampleBuilder ]}; objects := {[ 0 := emptyOptions ]} |}.

(** A store in which the builder has accumulated a tag selection, and an
    options object of the caller's. *)
Definition sampleStore2 : Store :=
  {| builders := {[ 0 := sampleBuilder ]};
     objects :=
       {[ 0 := set_runOnly {| ro_type := "tag"; ro_values := ["wcag2a"] |} emptyOptions;
          1 := {| runOnly := None; rules := None; extra := {[ "reporter" := "v2" ]} |} ]} |}.

Definition sampleNormalizeContext
    (includes excludes : list Selector) (disabled : list string) : ContextObject :=
  {| ctx_include := includes;
     ctx_exclude := excludes ++ map (fun frame => [frame; "*"]) disabled |}.

Definition sampleLogOrRethrowError (error : Error) : reply unit :=
  if String.eqb error "stale element reference" then Returns tt else Fails error.

(** ** The constructor *)

Section Construction.

(** The type of what is passed as [client], and [isWebdriverClient] of
    [./utils], which recognises a WebdriverIO client. *)
Variable Client : Type.
Variable isWebdriverClient : Client -> bool.

(** [require.resolve] and [fs.readFileSync(path, 'utf-8')] of Node.js. *)
Variable requireResolve : string -> reply string.
Variable readFileSync : string -> reply string.

(** The argument [{ client, axeSource }] of the constructor; a property
    [axeSource] that is absent is [None]. *)
Record Options : Type := MkOptions {
  client : Client;
  o_axeSource : option string
}.

(** Lines 48-55: the source is read from the installed package; whatever
    makes the reading fail, the error thrown is the one of line 52. *)
Definition readAxeCore : reply string :=
  match requireResolve "axe-core" with
  | Returns sourceDir =>
    match readFileSync sourceDir with
    | Returns source => Returns source
    | Fails _ => Fails "Unable to find axe-core source. Is axe-core installed?"
    end
  | Fails e => Fails e
  end.

(** Lines 45-56: [if (axeSource) ... else ...]; the empty string is
    falsy. *)
Definition resolveSource (axeSource : option string) : reply string :=
  match axeSource with
  | Some source => if negb (String.eqb source "") then Returns source else readAxeCore
  | None => readAxeCore
  end.

(** [new AxeBuilder({ client, axeSource })].  The instance and the object
    [{}] of the field [option] are new objects of the store; when the
    constructor throws nothing refers to them, and the store is left as
    it was. *)
Definition newAxeBuilder (options : Options) (σ : Store) : reply ref * Store :=
  if isWebdriverClient (client options) then
    match resolveSource (o_axeSource options) with
    | Returns source =>
      let this := fresh (dom (builders σ)) in
      let object := fresh (dom (objects σ)) in
      (Returns this,
       {| builders :=
            <[this := {| axeSource := source; includes := []; excludes := [];
                         option_ := object; disableFrameSelectors := [];
                         legacyMode := false |}]> (builders σ);
          objects := <[object := emptyOptions]> (objects σ) |})
    | Fails e => (Fails e, σ)
    end
  else
    (Fails "An instantiated WebdriverIO client greater than v5 is required", σ).

End Construction.

(** ** More notions used to state the properties *)

(** What a chain of configuration calls does to the fields of [this]. *)
Definition applyFieldEffects (cssesc : string -> string) (cs : list ConfigCall)
    (b : AxeBuilder) : AxeBuilder :=
  fold_left (fun b c => fieldEffect cssesc c b) cs b.

(** The selectors a chain of calls passes to [include], to [exclude] and to
    [disableFrame], in the order of the calls. *)
Definition includedBy (cs : list ConfigCall) : list Selector :=
  omap (fun c => match c with CallInclude s => Some (toArray s) | _ => None end) cs.

Definition excludedBy (cs : list ConfigCall) : list Selector :=
  omap (fun c => match c with CallExclude s => Some (toArray s) | _ => None end) cs.

Definition disabledBy (cs : list ConfigCall) : list string :=
  omap (fun c => match c with CallDisableFrame s => Some s | _ => None end) cs.

(** The flag the last [setLegacyMode] of a chain sets, if there is one. *)
Definition legacySetBy (cs : list ConfigCall) : option bool :=
  last (omap (fun c => match c with
                       | CallSetLegacyMode l => Some (default true l)
                       | _ => None
                       end) cs).

(** The [:not(...)] parts of the frame selectors. *)
Definition notParts (disabled : list string) : string :=
  fold_right (fun d rest => ":not(" +:+ d +:+ ")" +:+ rest) "" disabled.

(** Lines 200-208, the body of the [for] loop of [inject], as a function of
    its own; [recurse] is [this.inject]. *)
Definition injectChild (logOrRethrowError : Error -> reply unit)
    (recurse : option Element -> M unit) (iframe : Element) : M unit :=
  tryCatch
    (existing <- isExisting iframe ;;
     if negb existing then ret tt
     else
       recurse (Some iframe) ;;
       switchToParentFrame)
    (fun error => fun s => (liftReply (logOrRethrowError error), s)).

(** [m] leaves the windows as they are. *)
Definition keepsSession {A} (m : M A) : Prop :=
  forall s, sameSession s (snd (m s)).

(** The commands of the frame injector. *)
Definition injectorCommand (c : Command) : Prop :=
  match c with
  | CExecute _ | CFindAll _ | CIsExisting _ | CSwitchToFrame _ | CSwitchToParentFrame => True
  | _ => False
  end.

(** The commands of the collector. *)
Definition collectorCommand (c : Command) : Prop :=
  match c with
  | CGetFrameContext _ | CRunPartial _ _ | CFind _ | CSourceInject _
  | CSwitchToFrame _ | CSwitchToParentFrame => True
  | _ => False
  end.

(** The commands of the legacy mode: the injection probe, the frame
    injector and [axe.run]. *)
Definition legacyCommand (c : Command) : Prop :=
  match c with
  | CSourceInject _ | CRunLegacy _ _ => True
  | c => injectorCommand c
  end.

(** The commands of the default mode: everything but what only the legacy
    mode sends. *)
Definition partialCommand (c : Command) : Prop :=
  match c with
  | CRunLegacy _ _ | CExecute _ | CFindAll _ | CIsExisting _ => False
  | _ => True
  end.

(** A document in which the composed script runs and whose frame elements,
    as [$$] lists them, either do not exist any more or can be entered and
    left again and lead to such a document, down to depth [n]. *)
Fixpoint injectableWithin (b : AxeBuilder) (n : nat) (F : Frame) : Prop :=
  match n with
  | 0 => False
  | S n =>
    f_execute F (script b) = Returns tt
    /\ exists frames more,
         f_findAll F (frameSelector b) = Returns frames
         /\ f_findAll F (iframeSelector b) = Returns more
         /\ Forall (fun iframe =>
                      f_isExisting F iframe = Returns false
                      \/ (f_isExisting F iframe = Returns true
                          /\ exists child,
                               f_frames F !! iframe = Some child
                               /\ f_switchToParentFrame child = Returns tt
                               /\ injectableWithin b n child))
                   (frames ++ more)
  end.

(** ** More sample pages and sessions *)

(** A page with one frame in which no script runs. *)
Definition docWithBroken : Frame := document "T" [] [] [docBroken].

(** A session in which no new window can be opened, and one in which the
    new window cannot be switched to. *)
Definition blockedSession : Browser :=
  {| driver := {| pages := fun _ => docTop'; newWindow := Returns None;
                  focus := fun _ => Returns tt; navigate := fun _ _ => Returns tt |};
     window := "w0"; opened := ["w0"]; browsingContext := []; history := [] |}.

Definition unfocusableSession : Browser :=
  {| driver := {| pages := fun _ => docTop'; newWindow := Returns (Some "w1");
                  focus := fun _ => Fails "no such window";
                  navigate := fun _ _ => Returns tt |};
     window := "w0"; opened := ["w0"]; browsingContext := []; history := [] |}.

(** A store with two builders, each with an options object of its own. *)
Definition sampleStore3 : Store :=
  {| builders := {[ 0 := sampleBuilder;
                    1 := {| axeSource := "axe"; includes := []; excludes := [];
                            option_ := 1; disableFrameSelectors := [];
                            legacyMode := false |} ]};
     objects := {[ 0 := emptyOptions; 1 := emptyOptions ]} |}.

(** * Properties *)

(** ** The configuration methods *)

Section ConfigurationFacts.

Variable cssesc : string -> string.

Lemma call_returns_this c this σ : fst (call cssesc c this σ) = this.
Proof. destruct c; reflexivity. Qed.

Lemma chain_returns_this cs this σ : fst (chain cssesc cs this σ) = this.
Proof.
  revert σ. induction cs as [|c cs IH]; intros σ; simpl; [reflexivity|].
  pose proof (call_returns_this c this σ) as Hc.
  destruct (call cssesc c this σ) as [r σ']. simpl in Hc. subst r. apply IH.
Qed.

(** A chain is the calls applied one after the other to the same [this]. *)
Lemma chain_cons c cs this σ :
  snd (chain cssesc (c :: cs) this σ) = snd (chain cssesc cs this (snd (call cssesc c this σ))).
Proof.
  simpl. pose proof (call_returns_this c this σ) as Hc.
  destruct (call cssesc c this σ) as [r σ']. simpl in *. by subst r.
Qed.

Lemma chain_app cs1 cs2 this σ :
  snd (chain cssesc (cs1 ++ cs2) this σ)
  = snd (chain cssesc cs2 this (snd (chain cssesc cs1 this σ))).
Proof.
  revert σ. induction cs1 as [|c cs1 IH]; intros σ; [reflexivity|].
  rewrite <- app_comm_cons, !chain_cons. apply IH.
Qed.

Lemma alter_same {A} (f : A -> A) (i : nat) (m : gmap nat A) :
  (forall x, f x = x) -> alter f i m = m.
Proof.
  intros Hf. apply map_eq. intros j. rewrite lookup_alter.
  case_decide; [|done]. subst. destruct (m !! j); simpl; by rewrite ?Hf.
Qed.

(** One call, as a change of the fields of [this] and of the object
    [this.option] refers to. *)
Lemma call_effect c this σ :
  snd (call cssesc c this σ)
  = {| builders := alter (fieldEffect cssesc c) this (builders σ);
       objects := match builders σ !! this with
                  | Some b => alter (objectEffect c) (option_ b) (objects σ)
                  | None => objects σ
                  end |}.
Proof.
  destruct σ as [bs os].
  destruct c; simpl; unfold updateThis, mutateOption; simpl;
    destruct (bs !! this) as [b|] eqn:Hb; simpl;
    rewrite ?(alter_same (fun o : RunOptions => o)), ?(alter_same (fun b : AxeBuilder => b));
    auto.
Qed.

Lemma call_builder c this σ b :
  builders σ !! this = Some b ->
  builders (snd (call cssesc c this σ)) !! this = Some (fieldEffect cssesc c b).
Proof.
  intros Hb. rewrite call_effect. simpl. rewrite lookup_alter.
  case_decide; [|done]. by rewrite Hb.
Qed.

Lemma call_other_builder c this σ r :
  r ≠ this -> builders (snd (call cssesc c this σ)) !! r = builders σ !! r.
Proof.
  intros Hr. rewrite call_effect. simpl. rewrite lookup_alter.
  case_decide; [congruence|done].
Qed.

Lemma call_object c this σ b :
  builders σ !! this = Some b ->
  objects (snd (call cssesc c this σ)) !! option_ b
  = objectEffect c <$> objects σ !! option_ b.
Proof.
  intros Hb. rewrite call_effect. simpl. rewrite Hb, lookup_alter.
  case_decide; done.
Qed.

Lemma call_other_object c this σ b l :
  builders σ !! this = Some b -> l ≠ option_ b ->
  objects (snd (call cssesc c this σ)) !! l = objects σ !! l.
Proof.
  intros Hb Hl. rewrite call_effect. simpl. rewrite Hb, lookup_alter.
  case_decide; [congruence|done].
Qed.

Lemma fieldEffect_option c b :
  isOptionsCall c = false -> option_ (fieldEffect cssesc c b) = option_ b.
Proof. destruct c; simpl; intros; congruence. Qed.

(** Calls other than [options] leave [this.option] pointing at the same
    object and change that object where it is. *)
Lemma chain_in_place cs this σ b :
  builders σ !! this = Some b ->
  forallb (fun c => negb (isOptionsCall c)) cs = true ->
  (exists b', builders (snd (chain cssesc cs this σ)) !! this = Some b'
              /\ option_ b' = option_ b)
  /\ objects (snd (chain cssesc cs this σ)) !! option_ b
     = applyEffects cs <$> objects σ !! option_ b
  /\ (forall l, l ≠ option_ b ->
        objects (snd (chain cssesc cs this σ)) !! l = objects σ !! l).
Proof.
  revert σ b. induction cs as [|c cs IH]; intros σ b Hb Hcs.
  - simpl. split; [eauto|]. split; [|done].
    unfold applyEffects. simpl. by destruct (objects σ !! option_ b).
  - simpl in Hcs. apply andb_true_iff in Hcs as [Hc Hcs].
    apply negb_true_iff in Hc.
    rewrite chain_cons.
    pose proof (call_builder c this σ b Hb) as Hb1.
    pose proof (fieldEffect_option c b Hc) as Hopt.
    destruct (IH _ _ Hb1 Hcs) as ((b' & Hb' & Hob') & Hobj & Hother).
    rewrite Hopt in *.
    split; [eauto|]. split.
    + rewrite Hobj, (call_object c this σ b Hb).
      unfold applyEffects. simpl. by destruct (objects σ !! option_ b).
    + intros l Hl. rewrite (Hother l Hl). by apply call_other_object with b.
Qed.

Lemma applyEffects_selection (cs : list SelectionCall) o :
  rules (applyEffects (map asCall cs) o) = rules o
  /\ extra (applyEffects (map asCall cs) o) = extra o.
Proof.
  revert o. induction cs as [|c cs IH]; intros o; [done|].
  unfold applyEffects in *. simpl.
  destruct (IH (objectEffect (asCall c) o)) as [-> ->]. by destruct c.
Qed.

Lemma applyEffects_app cs1 cs2 o :
  applyEffects (cs1 ++ cs2) o = applyEffects cs2 (applyEffects cs1 o).
Proof. unfold applyEffects. apply fold_left_app. Qed.

Lemma selection_calls_no_options (cs : list SelectionCall) :
  forallb (fun c => negb (isOptionsCall c)) (map asCall cs) = true.
Proof. induction cs as [|[] cs IH]; simpl; auto. Qed.

(** C8: after any sequence of [withRules] and [withTags] calls, the object
    behind [this.option] holds exactly one [runOnly] selection, the one of
    the most recent call, with that call's type (['rule'] or ['tag']) and
    values; the earlier selections are overwritten, the other properties
    of the object are as they were. *)
Theorem selection_last_call_wins (cs : list SelectionCall) (c : SelectionCall)
    (this : ref) (σ : Store) (b : AxeBuilder) (o : RunOptions) :
  builders σ !! this = Some b ->
  objects σ !! option_ b = Some o ->
  readOption (snd (chain cssesc (map asCall (cs ++ [c])) this σ)) this
  = Some {| runOnly := Some (selectionOf c); rules := rules o; extra := extra o |}.
Proof.
  intros Hb Ho.
  destruct (chain_in_place (map asCall (cs ++ [c])) this σ b Hb
              (selection_calls_no_options _)) as ((b' & Hb' & Hopt) & Hobj & _).
  unfold readOption. rewrite Hb'. simpl. rewrite Hopt, Hobj, Ho. simpl.
  rewrite map_app, applyEffects_app.
  destruct (applyEffects_selection cs o) as [Hr He].
  unfold applyEffects at 1. simpl.
  destruct c; simpl; unfold set_runOnly; by rewrite Hr, He.
Qed.

(** C10: [setLegacyMode()] sets the flag ([legacyMode = true] is the
    default of the parameter), [setLegacyMode(false)] clears it, and every
    configuration method returns [this]: a chain of calls returns the
    builder it started from and is the same as making the calls one after
    the other on that one builder, no other builder being touched. *)
Theorem setLegacyMode_default_and_chaining (this : ref) (σ : Store) (b : AxeBuilder) :
  builders σ !! this = Some b ->
  (forall legacy,
      builders (snd (setLegacyMode legacy this σ)) !! this
      = Some (set_legacyMode (default true legacy) b))
  /\ legacyMode <$> builders (snd (setLegacyMode None this σ)) !! this = Some true
  /\ legacyMode <$> builders (snd (setLegacyMode (Some false) this σ)) !! this = Some false
  /\ (forall c, fst (call cssesc c this σ) = this)
  /\ (forall cs,
        fst (chain cssesc cs this σ) = this
        /\ snd (chain cssesc cs this σ)
           = fold_left (fun σ c => snd (call cssesc c this σ)) cs σ
        /\ forall r, r ≠ this ->
             builders (snd (chain cssesc cs this σ)) !! r = builders σ !! r).
Proof.
  intros Hb.
  assert (Hset : forall legacy,
             builders (snd (setLegacyMode legacy this σ)) !! this
             = Some (set_legacyMode (default true legacy) b)).
  { intros legacy. apply (call_builder (CallSetLegacyMode legacy) this σ b Hb). }
  split; [done|].
  split; [by rewrite Hset|].
  split; [by rewrite Hset|].
  split; [intros c; apply call_returns_this|].
  intros cs. split; [apply chain_returns_this|].
  clear Hb Hset. revert σ. induction cs as [|c cs IH]; intros σ; [done|].
  rewrite chain_cons. simpl. destruct (IH (snd (call cssesc c this σ))) as [-> Hr].
  split; [done|]. intros r Hne. rewrite (Hr r Hne). by apply call_other_builder.
Qed.

End ConfigurationFacts.

(** ** The composed script *)

Lemma prefix_nonempty_nil c n : String.prefix (String c n) "" = false.
Proof. reflexivity. Qed.

Lemma prefix_cons c n d t :
  String.prefix (String c n) (String d t)
  = if Ascii.eqb c d then String.prefix n t else false.
Proof.
  simpl. destruct (ascii_dec c d) as [->|Hne].
  - by rewrite Ascii.eqb_refl.
  - apply Ascii.eqb_neq in Hne. by rewrite Hne.
Qed.

(** A needle cannot reach across a character it does not contain. *)
Lemma prefix_barrier d n s t :
  occurs d n = false ->
  String.prefix n (s +:+ String d t) = String.prefix n s.
Proof.
  revert s. induction n as [|c n IH]; intros s Hd; [by destruct s|].
  simpl in Hd. apply orb_false_iff in Hd as [Hdc Hdn].
  destruct s as [|e s].
  - change ("" +:+ String d t) with (String d t).
    rewrite prefix_cons, prefix_nonempty_nil.
    rewrite Ascii.eqb_sym in Hdc. by rewrite Hdc.
  - change (String e s +:+ String d t) with (String e (s +:+ String d t)).
    rewrite !prefix_cons. destruct (Ascii.eqb c e); [by apply IH|done].
Qed.

Lemma contains_barrier d c n s t :
  occurs d (String c n) = false ->
  contains (String c n) (s +:+ String d t)
  = contains (String c n) s || contains (String c n) t.
Proof.
  intros Hd. induction s as [|e s IH].
  - change ("" +:+ String d t) with (String d t).
    change (contains (String c n) (String d t))
      with (String.prefix (String c n) (String d t) || contains (String c n) t).
    pose proof (prefix_barrier d (String c n) "" t Hd) as H.
    change ("" +:+ String d t) with (String d t) in H. by rewrite H.
  - change (String e s +:+ String d t) with (String e (s +:+ String d t)).
    change (contains (String c n) (String e (s +:+ String d t)))
      with (String.prefix (String c n) (String e s +:+ String d t)
            || contains (String c n) (s +:+ String d t)).
    pose proof (prefix_barrier d (String c n) (String e s) t Hd) as H.
    rewrite H, IH.
    change (contains (String c n) (String e s))
      with (String.prefix (String c n) (String e s) || contains (String c n) s).
    by rewrite orb_assoc.
Qed.

(** Nor can it start on a character other than its first. *)
Lemma contains_skip c n a t :
  occurs c a = false ->
  contains (String c n) (a +:+ t) = contains (String c n) t.
Proof.
  induction a as [|e a IH]; intros Hc; [reflexivity|].
  simpl in Hc. apply orb_false_iff in Hc as [Hce Hca].
  change (String e a +:+ t) with (String e (a +:+ t)).
  change (contains (String c n) (String e (a +:+ t)))
    with (String.prefix (String c n) (String e (a +:+ t)) || contains (String c n) (a +:+ t)).
  rewrite prefix_cons, Hce. simpl. by apply IH.
Qed.

(** The call of [axe.configure] starts on a new line. *)
Lemma configureCall_newline legacyMode :
  configureCall legacyMode
  = String (ascii_of_nat 10)
      ("      axe.configure({" +:+
       nl +:+ "        " +:+ (if legacyMode then "" else allowedOrigins) +:+
       nl +:+ "        branding: { application: 'webdriverio' }" +:+
       nl +:+ "      })" +:+
       nl +:+ "      ").
Proof. reflexivity. Qed.

(** C7: the composed script is the engine source (after the line break and
    indentation of the template) followed by the call of [axe.configure]
    with the branding of the integration; that call holds the entry
    [allowedOrigins: ['<unsafe_all_origins>'],] exactly when the legacy flag
    is off, so that with the flag on the script holds the entry only where
    the engine source itself does. *)
Theorem script_composition (b : AxeBuilder) :
  script b = nl +:+ "      " +:+ axeSource b +:+ configureCall (legacyMode b)
  /\ configureCall (legacyMode b)
     = nl +:+ "      axe.configure({" +:+
       nl +:+ "        " +:+ (if legacyMode b then "" else allowedOrigins) +:+
       nl +:+ "        branding: { application: 'webdriverio' }" +:+
       nl +:+ "      })" +:+
       nl +:+ "      "
  /\ contains "branding: { application: 'webdriverio' }" (configureCall (legacyMode b)) = true
  /\ contains allowedOrigins (configureCall (legacyMode b)) = negb (legacyMode b)
  /\ contains "<unsafe_all_origins>" (configureCall (legacyMode b)) = negb (legacyMode b)
  /\ contains allowedOrigins (script b)
     = negb (legacyMode b) || contains allowedOrigins (axeSource b).
Proof.
  split; [reflexivity|]. split; [reflexivity|].
  split; [by destruct (legacyMode b)|].
  split; [by destruct (legacyMode b)|].
  split; [by destruct (legacyMode b)|].
  unfold script.
  change (nl +:+ "      " +:+ axeSource b +:+ configureCall (legacyMode b))
    with ((nl +:+ "      ") +:+ (axeSource b +:+ configureCall (legacyMode b))).
  unfold allowedOrigins.
  rewrite contains_skip by reflexivity.
  rewrite configureCall_newline, contains_barrier by reflexivity.
  rewrite orb_comm. f_equal. by destruct (legacyMode b).
Qed.

(** ** The state-and-exception monad *)

Lemma bind_Ok {A B} (m : M A) (k : A -> M B) s a s1 :
  m s = (Ok a, s1) -> bind m k s = k a s1.
Proof. unfold bind. by intros ->. Qed.

Lemma bind_Throw {A B} (m : M A) (k : A -> M B) s e s1 :
  m s = (Throw e, s1) -> bind m k s = (Throw e, s1).
Proof. unfold bind. by intros ->. Qed.

Lemma bind_OutOfFuel {A B} (m : M A) (k : A -> M B) s s1 :
  m s = (OutOfFuel, s1) -> bind m k s = (OutOfFuel, s1).
Proof. unfold bind. by intros ->. Qed.

(** A sequence returns only if its first part does. *)
Lemma bind_Ok_inv {A B} (m : M A) (k : A -> M B) s r s' :
  bind m k s = (Ok r, s') -> exists a s1, m s = (Ok a, s1) /\ k a s1 = (Ok r, s').
Proof.
  unfold bind. destruct (m s) as [[a|e|] s1]; intros H; try discriminate. eauto.
Qed.

Lemma bind_Throw_inv {A B} (m : M A) (k : A -> M B) s e s' :
  bind m k s = (Throw e, s') ->
  m s = (Throw e, s') \/ exists a s1, m s = (Ok a, s1) /\ k a s1 = (Throw e, s').
Proof.
  unfold bind. destruct (m s) as [[a|e'|] s1]; intros H; try discriminate.
  - right. eauto.
  - left. congruence.
Qed.

Lemma ask_eq {A} (c : Command) (q : Frame -> reply A) s :
  ask c q s = (liftReply (q (currentFrame s)), record c s).
Proof. reflexivity. Qed.

Lemma currentFrame_record c s : currentFrame (record c s) = currentFrame s.
Proof. reflexivity. Qed.

Lemma currentFrame_entered e F k s :
  currentFrame (set_browsingContext ((e, F) :: k) s) = F.
Proof. reflexivity. Qed.

Lemma browsingContext_record c s : browsingContext (record c s) = browsingContext s.
Proof. reflexivity. Qed.

Lemma browsingContext_set k s : browsingContext (set_browsingContext k s) = k.
Proof. reflexivity. Qed.

Lemma sameSession_record c s t : sameSession s t -> sameSession s (record c t).
Proof. intros H. exact H. Qed.

Lemma sameSession_set k s t : sameSession s t -> sameSession s (set_browsingContext k t).
Proof. intros H. exact H. Qed.

Create HintDb session discriminated.
#[local] Hint Resolve sameSession_record sameSession_set : session.

Lemma switchToFrame_eq e s :
  switchToFrame e s
  = match f_frames (currentFrame s) !! e with
    | Some F =>
      (Ok tt, set_browsingContext ((e, F) :: browsingContext s) (record (CSwitchToFrame e) s))
    | None => (Throw "no such frame", record (CSwitchToFrame e) s)
    end.
Proof. reflexivity. Qed.

Lemma switchToParentFrame_eq s :
  switchToParentFrame s
  = match f_switchToParentFrame (currentFrame s) with
    | Returns _ =>
      (Ok tt, set_browsingContext (tail (browsingContext s)) (record CSwitchToParentFrame s))
    | Fails e => (Throw e, record CSwitchToParentFrame s)
    end.
Proof. reflexivity. Qed.

Lemma switchToParentFrame_Ok s :
  f_switchToParentFrame (currentFrame s) = Returns tt ->
  switchToParentFrame s
  = (Ok tt, set_browsingContext (tail (browsingContext s)) (record CSwitchToParentFrame s)).
Proof. intros H. by rewrite switchToParentFrame_eq, H. Qed.


Lemma switchToParentFrame_Throw_inv s e s' :
  switchToParentFrame s = (Throw e, s') ->
  f_switchToParentFrame (currentFrame s) = Fails e
  /\ s' = record CSwitchToParentFrame s.
Proof.
  rewrite switchToParentFrame_eq.
  destruct (f_switchToParentFrame (currentFrame s)) as [[]|e']; [discriminate|].
  by intros [= <- <-].
Qed.

Lemma switchToParentFrame_not_OutOfFuel s s' :
  switchToParentFrame s ≠ (OutOfFuel, s').
Proof.
  rewrite switchToParentFrame_eq.
  by destruct (f_switchToParentFrame (currentFrame s)) as [[]|e'].
Qed.

Lemma liftReply_Ok_inv {A} (r : reply A) a : liftReply r = Ok a -> r = Returns a.
Proof. destruct r; simpl; congruence. Qed.

Lemma liftReply_Throw_inv {A} (r : reply A) e : liftReply r = Throw e -> r = Fails e.
Proof. destruct r; simpl; congruence. Qed.

Lemma liftReply_not_OutOfFuel {A} (r : reply A) : liftReply r ≠ OutOfFuel.
Proof. by destruct r. Qed.

(** ** The partial-result collector *)

Section Collector.

Variable b : AxeBuilder.
Variable o : RunOptions.

(** The loop body: what the [try] block returns is appended; what it
    throws becomes one [null], and the [catch] block goes on with
    [switchToParentFrame], sent from where the [try] block stopped. *)
Lemma collectChild_eq recurse partials fc s :
  collectChild b recurse partials fc s
  = match scanChild b recurse fc s with
    | (Ok sub, s1) => (Ok (partials ++ sub), s1)
    | (Throw e, s1) => (switchToParentFrame ;; ret (partials ++ [None])) s1
    | (OutOfFuel, s1) => (OutOfFuel, s1)
    end.
Proof.
  unfold collectChild, tryCatch, bind.
  destruct (scanChild b recurse fc s) as [[sub|e|] s1]; reflexivity.
Qed.

(** The loop body throws nothing but the error of the
    [switchToParentFrame] of its [catch] block. *)
Lemma collectChild_Throw_inv recurse partials fc s e' s' :
  collectChild b recurse partials fc s = (Throw e', s') ->
  exists e s1,
    scanChild b recurse fc s = (Throw e, s1)
    /\ f_switchToParentFrame (currentFrame s1) = Fails e'
    /\ s' = record CSwitchToParentFrame s1.
Proof.
  rewrite collectChild_eq.
  destruct (scanChild b recurse fc s) as [[sub|e|] s1]; try discriminate.
  intros H. apply bind_Throw_inv in H as [H|([] & s2 & _ & H)]; [|discriminate].
  apply switchToParentFrame_Throw_inv in H as [H ->]. by exists e, s1.
Qed.

Lemma forEach_collectChild_Throw_inv recurse fcs partials s e' s' :
  forEach fcs partials (collectChild b recurse) s = (Throw e', s') ->
  exists fc t e s1,
    fc ∈ fcs
    /\ scanChild b recurse fc t = (Throw e, s1)
    /\ f_switchToParentFrame (currentFrame s1) = Fails e'
    /\ s' = record CSwitchToParentFrame s1.
Proof.
  revert partials s. induction fcs as [|fc fcs IH]; intros partials s H; [discriminate|].
  simpl in H. apply bind_Throw_inv in H as [H|(acc & s1 & _ & H)].
  - apply collectChild_Throw_inv in H as (e & s1 & Hscan & Hswitch & ->).
    exists fc, s, e, s1. split; [by left|done].
  - apply IH in H as (fc' & t & e & s2 & Hin & H).
    exists fc', t, e, s2. split; [by right|done].
Qed.


(** The [try] block on a frame context whose frame is found and can be
    entered. *)
Lemma scanChild_entered recurse fc s e child :
  f_find (currentFrame s) (fc_frameSelector fc) = Returns (Some e) ->
  f_frames (currentFrame s) !! e = Some child ->
  scanChild b recurse fc s
  = match f_sourceInject child (script b) with
    | Returns _ =>
      recurse (fc_frameContext fc)
        (record (CSourceInject (script b))
           (set_browsingContext ((e, child) :: browsingContext s)
              (record (CSwitchToFrame e) (record (CFind (fc_frameSelector fc)) s))))
    | Fails err =>
      (Throw err,
       record (CSourceInject (script b))
         (set_browsingContext ((e, child) :: browsingContext s)
            (record (CSwitchToFrame e) (record (CFind (fc_frameSelector fc)) s))))
    end.
Proof.
  intros Hfind Hchild. unfold scanChild.
  erewrite bind_Ok; [|unfold find; rewrite ask_eq, Hfind; reflexivity].
  erewrite bind_Ok; [|reflexivity].
  erewrite bind_Ok; [|rewrite switchToFrame_eq, currentFrame_record, Hchild; reflexivity].
  unfold bind, axeSourceInject. rewrite ask_eq, currentFrame_entered.
  by destruct (f_sourceInject child (script b)).
Qed.

(** *** More fuel changes nothing *)

Lemma refines_refl {A} (m : M A) : refines m m.
Proof. by intros s r s'. Qed.

Lemma bind_refines {A B} (m1 m2 : M A) (k1 k2 : A -> M B) :
  refines m1 m2 -> (forall a, refines (k1 a) (k2 a)) ->
  refines (bind m1 k1) (bind m2 k2).
Proof.
  intros Hm Hk s r s'. unfold bind.
  destruct (m1 s) as [[a|e|] s1] eqn:H1.
  - rewrite (Hm s _ _ H1) by done. apply Hk.
  - by rewrite (Hm s _ _ H1).
  - intros [= <- <-]. done.
Qed.

Lemma forEach_refines {A B} (xs : list A) (body1 body2 : B -> A -> M B) :
  (forall acc x, refines (body1 acc x) (body2 acc x)) ->
  forall acc, refines (forEach xs acc body1) (forEach xs acc body2).
Proof.
  intros Hbody. induction xs as [|x xs IH]; intros acc s r s'; [done|].
  simpl. unfold bind.
  destruct (body1 acc x s) as [[a|e|] s1] eqn:H1.
  - rewrite (Hbody acc x s _ _ H1) by done. apply IH.
  - rewrite (Hbody acc x s _ _ H1) by done. done.
  - intros [= <- <-]. done.
Qed.

Lemma collectChild_refines recurse1 recurse2 partials fc :
  (forall context, refines (recurse1 context) (recurse2 context)) ->
  refines (collectChild b recurse1 partials fc) (collectChild b recurse2 partials fc).
Proof.
  intros Hrec s r s'. rewrite !collectChild_eq.
  assert (Hscan : refines (scanChild b recurse1 fc) (scanChild b recurse2 fc)).
  { unfold scanChild. repeat (apply bind_refines; [apply refines_refl|intros]). apply Hrec. }
  destruct (scanChild b recurse1 fc s) as [[sub|e|] s1] eqn:H1.
  - by rewrite (Hscan s _ _ H1).
  - by rewrite (Hscan s _ _ H1).
  - intros [= <- <-]. done.
Qed.

Lemma runPartialRecursive_S fuel context :
  runPartialRecursive b o (S fuel) context
  = (frameContexts <- axeGetFrameContext context ;;
     own <- axeRunPartial context o ;;
     partials <- forEach frameContexts [Some own]
                   (collectChild b (runPartialRecursive b o fuel)) ;;
     switchToParentFrame ;;
     ret partials).
Proof. reflexivity. Qed.

(** A call that does not run out of fuel gives the same result and the
    same session state with any larger amount. *)
Lemma runPartialRecursive_more_fuel fuel context :
  refines (runPartialRecursive b o fuel context) (runPartialRecursive b o (S fuel) context).
Proof.
  revert context. induction fuel as [|fuel IH]; intros context.
  - intros s r s' [= <- <-]. done.
  - rewrite !runPartialRecursive_S.
    apply bind_refines; [apply refines_refl|intros fcs].
    apply bind_refines; [apply refines_refl|intros own].
    apply bind_refines; [|intros; apply refines_refl].
    apply forEach_refines. intros acc fc. by apply collectChild_refines.
Qed.

(** *** Frames that can all be entered *)

Lemma sameSession_refl s : sameSession s s.
Proof. by repeat split. Qed.

Lemma sameSession_trans s1 s2 s3 :
  sameSession s1 s2 -> sameSession s2 s3 -> sameSession s1 s3.
Proof. unfold sameSession. intros (-> & -> & ->) (-> & -> & ->). done. Qed.

Lemma currentFrame_same s s' :
  sameSession s s' -> browsingContext s' = browsingContext s ->
  currentFrame s' = currentFrame s.
Proof. unfold currentFrame. intros (-> & -> & _) ->. done. Qed.

Lemma forEach_Forall {A B} (P : A -> Prop) (I : Browser -> Prop)
    (xs : list A) (body : B -> A -> M B) :
  Forall P xs ->
  (forall acc x s, P x -> I s -> exists acc' s', body acc x s = (Ok acc', s') /\ I s') ->
  forall acc s, I s -> exists acc' s', forEach xs acc body s = (Ok acc', s') /\ I s'.
Proof.
  intros HP Hbody. induction HP as [|x xs Hx _ IH]; intros acc s HI.
  - exists acc, s. done.
  - destruct (Hbody acc x s Hx HI) as (acc1 & s1 & H1 & HI1).
    destruct (IH acc1 s1 HI1) as (acc2 & s2 & H2 & HI2).
    exists acc2, s2. split; [|done]. simpl. by rewrite (bind_Ok _ _ _ _ _ H1).
Qed.

Lemma specPreorder_S depth context F :
  specPreorder b o (S depth) context F
  = match f_getFrameContext F context with
    | Returns fcs =>
      match f_runPartial F context o with
      | Returns own =>
        match specContributions fcs (specContribution b (specPreorder b o depth) F) with
        | Ok rest => Ok (Some own :: rest)
        | r => r
        end
      | Fails e => Throw e
      end
    | Fails e => Throw e
    end.
Proof. reflexivity. Qed.

Lemma specContributions_cons fc fcs contribution :
  specContributions (fc :: fcs) contribution
  = match contribution fc with
    | Ok sub =>
      match specContributions fcs contribution with
      | Ok rest => Ok (sub ++ rest)
      | r => r
      end
    | r => r
    end.
Proof. reflexivity. Qed.

(** On a page whose frames can all be found, entered and left, the
    collector does not run out of fuel, leaves the browsing context where
    [landed] says, and returns the listing of the frame tree. *)
Lemma runPartialRecursive_on_reachable n :
  forall fuel context s,
    reachableWithin n (currentFrame s) -> n <= fuel ->
    exists r s',
      runPartialRecursive b o fuel context s = (r, s')
      /\ sameSession s s' /\ landed r s s'
      /\ r = specPreorder b o fuel context (currentFrame s).
Proof.
  induction n as [|n IH]; intros fuel context s Hreach Hfuel; [destruct Hreach|].
  destruct fuel as [|fuel]; [lia|]. assert (Hn : n <= fuel) by lia. clear Hfuel.
  destruct Hreach as [Hleave Hreach]. rewrite runPartialRecursive_S, specPreorder_S.
  destruct (f_getFrameContext (currentFrame s) context) as [fcs|e] eqn:Hfcs.
  2: { erewrite bind_Throw;
         [|unfold axeGetFrameContext; rewrite ask_eq, Hfcs; reflexivity].
       eexists _, _. split; [reflexivity|]. by repeat split. }
  erewrite bind_Ok; [|unfold axeGetFrameContext; rewrite ask_eq, Hfcs; reflexivity].
  destruct (f_runPartial (currentFrame s) context o) as [own|e] eqn:Hown.
  2: { erewrite bind_Throw;
         [|unfold axeRunPartial; rewrite ask_eq, currentFrame_record, Hown; reflexivity].
       eexists _, _. split; [reflexivity|]. by repeat split. }
  erewrite bind_Ok;
    [|unfold axeRunPartial; rewrite ask_eq, currentFrame_record, Hown; reflexivity].
  specialize (Hreach context fcs Hfcs).
  set (s2 := record (CRunPartial context o) (record (CGetFrameContext context) s)).
  assert (Hloop : forall acc t,
             browsingContext t = browsingContext s -> sameSession s t ->
             exists rest t',
               forEach fcs acc (collectChild b (runPartialRecursive b o fuel)) t
               = (Ok (acc ++ rest), t')
               /\ browsingContext t' = browsingContext s /\ sameSession s t'
               /\ specContributions fcs (specContribution b (specPreorder b o fuel) (currentFrame s))
                  = Ok rest).
  { clear Hfcs.
    induction Hreach as [|fc fcs (e & child & Hfind & Hchild & Hrc) _ IHfcs];
      intros acc t Hbc Hsame.
    { exists [], t. by rewrite app_nil_r. }
    pose proof (currentFrame_same s t Hsame Hbc) as Hcur.
    assert (Hchildleave : f_switchToParentFrame child = Returns tt).
    { destruct n; [destruct Hrc|]. apply Hrc. }
    assert (Hbody : exists sub t1,
               collectChild b (runPartialRecursive b o fuel) acc fc t = (Ok (acc ++ sub), t1)
               /\ browsingContext t1 = browsingContext s /\ sameSession s t1
               /\ specContribution b (specPreorder b o fuel) (currentFrame s) fc = Ok sub).
    { unfold specContribution. rewrite Hfind, Hchild.
      rewrite collectChild_eq, (scanChild_entered _ fc t e child) by (by rewrite Hcur).
      rewrite Hbc.
      set (u := record (CSourceInject (script b))
                  (set_browsingContext ((e, child) :: browsingContext s)
                     (record (CSwitchToFrame e) (record (CFind (fc_frameSelector fc)) t)))).
      assert (Hu : sameSession s u) by (subst u; auto with session).
      assert (Hbcu : browsingContext u = (e, child) :: browsingContext s) by reflexivity.
      destruct (f_sourceInject child (script b)) as [supported|err].
      - destruct (IH fuel (fc_frameContext fc) u Hrc Hn)
          as (r & s' & Hrun & Hsame' & Hland & Hr).
        change (currentFrame u) with child in Hr. rewrite <- Hr, Hrun.
        assert (Hs' : sameSession s s') by (by eapply sameSession_trans).
        destruct r as [sub|err|]; unfold landed in Hland; [| |done].
        + exists sub, s'. split; [done|]. split; [by rewrite Hland, Hbcu|done].
        + assert (Hcur' : currentFrame s' = child).
          { by rewrite (currentFrame_same u s' Hsame' Hland). }
          erewrite bind_Ok; [|apply switchToParentFrame_Ok; by rewrite Hcur'].
          eexists [None], _. split; [reflexivity|]. split.
          * simpl. by rewrite Hland, Hbcu.
          * split; [auto with session|done].
      - erewrite bind_Ok; [|by apply switchToParentFrame_Ok].
        eexists [None], _. split; [reflexivity|]. split; [done|].
        split; [auto with session|done]. }
    destruct Hbody as (sub & t1 & Hbody & Hbc1 & Hsame1 & Hsub).
    destruct (IHfcs (acc ++ sub) t1 Hbc1 Hsame1) as (rest & t' & Hrest & Hbc' & Hsame' & Hc).
    exists (sub ++ rest), t'. split.
    { simpl. erewrite bind_Ok; [|exact Hbody]. by rewrite Hrest, app_assoc. }
    split; [done|]. split; [done|].
    by rewrite specContributions_cons, Hsub, Hc. }
  destruct (Hloop [Some own] s2) as (rest & s3 & Hrun & Hbc3 & Hsame3 & Hc);
    [done|done|].
  erewrite bind_Ok; [|exact Hrun].
  erewrite bind_Ok.
  2: { apply switchToParentFrame_Ok. by rewrite (currentFrame_same s s3 Hsame3 Hbc3). }
  eexists _, _. split; [reflexivity|]. split; [auto with session|]. split.
  - unfold landed. simpl. by rewrite Hbc3.
  - by rewrite Hc.
Qed.

(** X9: when every frame context the engine reports names a frame that can
    be found, entered and left again, a call with enough fuel does not run
    out of it and leaves the browsing context where [landed] says: the
    only failures left are those met inside the frame entered, which the
    [catch] block of the caller undoes by going up one level. *)
Lemma runPartialRecursive_reachable n :
  forall fuel context s,
    reachableWithin n (currentFrame s) -> n <= fuel ->
    exists r s',
      runPartialRecursive b o fuel context s = (r, s')
      /\ sameSession s s' /\ landed r s s'.
Proof.
  intros fuel context s Hreach Hfuel.
  destruct (runPartialRecursive_on_reachable n fuel context s Hreach Hfuel)
    as (r & s' & Hrun & Hsame & Hland & _).
  by exists r, s'.
Qed.

(** X21: on a page whose frames can all be found, entered and left again,
    what [runPartialRecursive] returns is the pre-order listing of the
    frame tree the specification describes: the partial result of the
    frame it is called in, then, for each frame context in the order of
    the report, the listing of that frame's subtree, or a single [null]
    when the script cannot be injected there or the scan of that frame
    fails; and the call throws exactly when the scan of its own frame
    fails. *)
Theorem runPartialRecursive_lists_reachable_tree_in_preorder n fuel context s :
  reachableWithin n (currentFrame s) -> n <= fuel ->
  fst (runPartialRecursive b o fuel context s)
  = specPreorder b o fuel context (currentFrame s)
  /\ specPreorder b o fuel context (currentFrame s) ≠ OutOfFuel.
Proof.
  intros Hreach Hfuel.
  destruct (runPartialRecursive_on_reachable n fuel context s Hreach Hfuel)
    as (r & s' & Hrun & _ & Hland & Hr).
  rewrite Hrun, <- Hr. split; [done|]. intros ->. exact Hland.
Qed.

(** *** Errors *)

(** The five places of the [try] block an error can come from. *)
Lemma scanChild_Throw_inv recurse fc s e s1 :
  scanChild b recurse fc s = (Throw e, s1) ->
  f_find (currentFrame s) (fc_frameSelector fc) = Fails e
  \/ (f_find (currentFrame s) (fc_frameSelector fc) = Returns None
      /\ e = "Expect frame of " +:+ dq +:+ fc_frameSelector fc +:+ dq +:+ " to be defined")
  \/ (exists el,
        f_find (currentFrame s) (fc_frameSelector fc) = Returns (Some el)
        /\ f_frames (currentFrame s) !! el = None /\ e = "no such frame")
  \/ (exists el child,
        f_find (currentFrame s) (fc_frameSelector fc) = Returns (Some el)
        /\ f_frames (currentFrame s) !! el = Some child
        /\ f_sourceInject child (script b) = Fails e)
  \/ (exists el child supported s0,
        f_find (currentFrame s) (fc_frameSelector fc) = Returns (Some el)
        /\ f_frames (currentFrame s) !! el = Some child
        /\ f_sourceInject child (script b) = Returns supported
        /\ recurse (fc_frameContext fc) s0 = (Throw e, s1)).
Proof.
  intros H.
  destruct (f_find (currentFrame s) (fc_frameSelector fc)) as [[el|]|err] eqn:Hfind.
  - destruct (f_frames (currentFrame s) !! el) as [child|] eqn:Hchild.
    + rewrite (scanChild_entered _ _ _ _ _ Hfind Hchild) in H.
      destruct (f_sourceInject child (script b)) as [supported|err] eqn:Hinj.
      * do 4 right. eauto 10.
      * do 3 right. left. exists el, child. repeat split; congruence.
    + do 2 right. left. exists el. split; [done|]. split; [done|].
      unfold scanChild in H.
      erewrite bind_Ok in H; [|unfold find; rewrite ask_eq, Hfind; reflexivity].
      erewrite bind_Ok in H; [|reflexivity].
      erewrite bind_Throw in H;
        [|rewrite switchToFrame_eq, currentFrame_record, Hchild; reflexivity].
      congruence.
  - right. left. split; [done|].
    unfold scanChild in H.
    erewrite bind_Ok in H; [|unfold find; rewrite ask_eq, Hfind; reflexivity].
    erewrite bind_Throw in H; [|reflexivity]. congruence.
  - left. unfold scanChild in H.
    erewrite bind_Throw in H; [|unfold find; rewrite ask_eq, Hfind; reflexivity].
    congruence.
Qed.

(** Each of them makes the [try] block throw. *)
Lemma scanChild_Throw recurse fc s e :
  f_find (currentFrame s) (fc_frameSelector fc) = Fails e
  \/ (f_find (currentFrame s) (fc_frameSelector fc) = Returns None
      /\ e = "Expect frame of " +:+ dq +:+ fc_frameSelector fc +:+ dq +:+ " to be defined")
  \/ (exists el,
        f_find (currentFrame s) (fc_frameSelector fc) = Returns (Some el)
        /\ f_frames (currentFrame s) !! el = None /\ e = "no such frame")
  \/ (exists el child,
        f_find (currentFrame s) (fc_frameSelector fc) = Returns (Some el)
        /\ f_frames (currentFrame s) !! el = Some child
        /\ (f_sourceInject child (script b) = Fails e
            \/ exists supported,
                 f_sourceInject child (script b) = Returns supported
                 /\ fst (recurse (fc_frameContext fc)
                           (record (CSourceInject (script b))
                              (set_browsingContext ((el, child) :: browsingContext s)
                                 (record (CSwitchToFrame el)
                                    (record (CFind (fc_frameSelector fc)) s)))))
                    = Throw e)) ->
  exists s1, scanChild b recurse fc s = (Throw e, s1).
Proof.
  intros [Hfind|[[Hfind ->]|[(el & Hfind & Hchild & ->)|(el & child & Hfind & Hchild & H)]]].
  - unfold scanChild.
    erewrite bind_Throw; [|unfold find; rewrite ask_eq, Hfind; reflexivity]. by eexists.
  - unfold scanChild.
    erewrite bind_Ok; [|unfold find; rewrite ask_eq, Hfind; reflexivity].
    erewrite bind_Throw; [|reflexivity]. by eexists.
  - unfold scanChild.
    erewrite bind_Ok; [|unfold find; rewrite ask_eq, Hfind; reflexivity].
    erewrite bind_Ok; [|reflexivity].
    erewrite bind_Throw;
      [|rewrite switchToFrame_eq, currentFrame_record, Hchild; reflexivity].
    by eexists.
  - rewrite (scanChild_entered _ _ _ _ _ Hfind Hchild).
    destruct H as [->|(supported & -> & H)]; [by eexists|].
    match goal with |- context [recurse ?c ?u] =>
      destruct (recurse c u) as [r s1] eqn:Hrun end.
    simpl in H. subst r. by eexists.
Qed.

(** The collector throws the error of one of its own two scripts in the
    frame it was called in, before any frame has been entered, or the
    error of a [switchToParentFrame] the driver refused -- in a [catch]
    block of the loop or at the end of the call -- and is then still in the
    frame that could not be left. *)
Lemma runPartialRecursive_Throw_inv fuel context s e s' :
  runPartialRecursive b o fuel context s = (Throw e, s') ->
  ((f_getFrameContext (currentFrame s) context = Fails e
    \/ exists fcs,
         f_getFrameContext (currentFrame s) context = Returns fcs
         /\ f_runPartial (currentFrame s) context o = Fails e)
   /\ browsingContext s' = browsingContext s)
  \/ f_switchToParentFrame (currentFrame s') = Fails e.
Proof.
  destruct fuel as [|fuel]; [discriminate|]. rewrite runPartialRecursive_S. intros H.
  apply bind_Throw_inv in H as [H|(fcs & t1 & Hfcs & H)].
  { unfold axeGetFrameContext in H. rewrite ask_eq in H. injection H as H <-.
    apply liftReply_Throw_inv in H. left. split; [by left|done]. }
  unfold axeGetFrameContext in Hfcs. rewrite ask_eq in Hfcs. injection Hfcs as Hfcs <-.
  apply liftReply_Ok_inv in Hfcs.
  apply bind_Throw_inv in H as [H|(own & t2 & Hown & H)].
  { unfold axeRunPartial in H. rewrite ask_eq, currentFrame_record in H.
    injection H as H <-. apply liftReply_Throw_inv in H. left. split; [right; eauto|done]. }
  right.
  apply bind_Throw_inv in H as [H|(partials & t3 & Hloop & H)].
  { by apply forEach_collectChild_Throw_inv in H as (fc & t & e0 & u & _ & _ & Hswitch & ->). }
  apply bind_Throw_inv in H as [H|(? & t4 & _ & H)]; [|discriminate].
  by apply switchToParentFrame_Throw_inv in H as [H ->].
Qed.

(** Going up from where the frame was looked up, not from inside it: a
    failure met before the frame is entered leaves the browsing context
    one level above the frame the loop is working in. *)
Lemma collectChild_failure_before_entering recurse partials fc s :
  f_switchToParentFrame (currentFrame s) = Returns tt ->
  (exists e, f_find (currentFrame s) (fc_frameSelector fc) = Fails e)
  \/ f_find (currentFrame s) (fc_frameSelector fc) = Returns None
  \/ (exists el,
        f_find (currentFrame s) (fc_frameSelector fc) = Returns (Some el)
        /\ f_frames (currentFrame s) !! el = None) ->
  exists s',
    collectChild b recurse partials fc s = (Ok (partials ++ [None]), s')
    /\ browsingContext s' = tail (browsingContext s).
Proof.
  intros Hleave [[e Hfind]|[Hfind|(el & Hfind & Hchild)]];
    rewrite collectChild_eq; unfold scanChild.
  - erewrite bind_Throw; [|unfold find; rewrite ask_eq, Hfind; reflexivity].
    erewrite bind_Ok; [|by apply switchToParentFrame_Ok].
    eexists. split; reflexivity.
  - erewrite bind_Ok; [|unfold find; rewrite ask_eq, Hfind; reflexivity].
    erewrite bind_Throw; [|reflexivity].
    erewrite bind_Ok; [|by apply switchToParentFrame_Ok].
    eexists. split; reflexivity.
  - erewrite bind_Ok; [|unfold find; rewrite ask_eq, Hfind; reflexivity].
    erewrite bind_Ok; [|reflexivity].
    erewrite bind_Throw;
      [|rewrite switchToFrame_eq, currentFrame_record, Hchild; reflexivity].
    erewrite bind_Ok; [|by apply switchToParentFrame_Ok].
    eexists. split; reflexivity.
Qed.

(** *** The result finisher *)

Lemma switchToWindow_eq h s :
  switchToWindow h s
  = if bool_decide (h ∈ opened s) then
      match focus (driver s) h with
      | Returns _ => (Ok tt, set_window h (record (CSwitchToWindow h) s))
      | Fails e => (Throw e, record (CSwitchToWindow h) s)
      end
    else (Throw "no such window", record (CSwitchToWindow h) s).
Proof. reflexivity. Qed.

Lemma createWindow_eq kind s :
  createWindow kind s
  = match newWindow (driver s) with
    | Returns (Some h) =>
      (Ok (Some h), set_opened (opened s ++ [h]) (record (CCreateWindow kind) s))
    | Returns None => (Ok None, record (CCreateWindow kind) s)
    | Fails e => (Throw e, record (CCreateWindow kind) s)
    end.
Proof. reflexivity. Qed.

(** The session once [finishRun] has opened the new window, switched to it
    and loaded the blank page. *)
Lemma finishRun_in_new_window partials s h :
  newWindow (driver s) = Returns (Some h) ->
  h ≠ "" ->
  focus (driver s) h = Returns tt ->
  navigate (driver s) h "about:blank" = Returns tt ->
  finishRun b o partials s
  = (res <- axeFinishRun (axeSource b) partials o ;;
     closeWindow ;;
     switchToWindow (window s) ;;
     ret res)
      (set_browsingContext []
         (record (CUrl "about:blank")
            (set_window h
               (record (CSwitchToWindow h)
                  (set_opened (opened s ++ [h])
                     (record (CCreateWindow "tab") (record CGetWindowHandle s))))))).
Proof.
  intros Hnew Hh Hfocus Hnav. unfold finishRun.
  erewrite bind_Ok; [|reflexivity].
  erewrite bind_Ok; [|rewrite createWindow_eq; simpl driver; rewrite Hnew; reflexivity].
  erewrite bind_Ok.
  2: { simpl. unfold truthyHandle. apply String.eqb_neq in Hh. rewrite Hh. reflexivity. }
  erewrite bind_Ok; [reflexivity|].
  unfold tryCatch. erewrite bind_Ok.
  2: { rewrite switchToWindow_eq. simpl driver. simpl opened.
       rewrite bool_decide_eq_true_2 by set_solver. rewrite Hfocus. reflexivity. }
  unfold url. simpl. rewrite Hnav. reflexivity.
Qed.

(** C4 (the code against the claim): when [axeFinishRun] throws, the
    error leaves [finishRun] at once.  The commands sent end with the
    merge: neither [closeWindow] nor [switchToWindow(win)] follows, the
    temporary window is still open and is the active window.  The [catch]
    block of [analyzePromise] then adds the pointer to the troubleshooting
    page to the message. *)
Theorem finishRun_merge_failure_keeps_temporary_window partials s h e :
  newWindow (driver s) = Returns (Some h) ->
  h ≠ "" ->
  focus (driver s) h = Returns tt ->
  navigate (driver s) h "about:blank" = Returns tt ->
  f_finishRun (pages (driver s) h) (axeSource b) partials o = Fails e ->
  exists s',
    finishRun b o partials s = (Throw e, s')
    /\ tryCatch (finishRun b o partials) (fun error => throw (error +:+ troubleshooting)) s
       = (Throw (e +:+ troubleshooting), s')
    /\ window s' = h
    /\ h ∈ opened s'
    /\ extends s [CGetWindowHandle; CCreateWindow "tab"; CSwitchToWindow h;
                  CUrl "about:blank"; CFinishRun (axeSource b) partials o] s'.
Proof.
  intros Hnew Hh Hfocus Hnav Hmerge.
  pose proof (finishRun_in_new_window partials s h Hnew Hh Hfocus Hnav) as Hrun.
  erewrite bind_Throw in Hrun.
  2: { unfold axeFinishRun. rewrite ask_eq. unfold currentFrame. simpl.
       rewrite Hmerge. reflexivity. }
  eexists. split; [exact Hrun|]. split; [unfold tryCatch; by rewrite Hrun|].
  split; [reflexivity|]. split; [simpl; set_solver|].
  unfold extends. simpl. by rewrite <- !app_assoc.
Qed.


End Collector.

(** ** What the methods send to the browser *)

Section Issues.

Variable P : Command -> Prop.

Lemma extends_refl s : extends s [] s.
Proof. unfold extends. by rewrite app_nil_r. Qed.

Lemma extends_trans s1 cs1 s2 cs2 s3 :
  extends s1 cs1 s2 -> extends s2 cs2 s3 -> extends s1 (cs1 ++ cs2) s3.
Proof. unfold extends. intros H1 H2. by rewrite H2, H1, app_assoc. Qed.

Lemma issues_ret {A} (a : A) : issues P (ret a).
Proof. intros s. exists []. split; [apply extends_refl|constructor]. Qed.

Lemma issues_throw {A} e : issues P (@throw A e).
Proof. intros s. exists []. split; [apply extends_refl|constructor]. Qed.

Lemma issues_outOfFuel {A} : issues P (@outOfFuel A).
Proof. intros s. exists []. split; [apply extends_refl|constructor]. Qed.

Lemma issues_reply {A} (r : reply A) : issues P (fun s => (liftReply r, s)).
Proof. intros s. exists []. split; [apply extends_refl|constructor]. Qed.

Lemma issues_bind {A B} (m : M A) (k : A -> M B) :
  issues P m -> (forall a, issues P (k a)) -> issues P (bind m k).
Proof.
  intros Hm Hk s. destruct (Hm s) as (cs1 & H1 & HP1). unfold bind.
  destruct (m s) as [[a|e|] s1]; simpl in *; eauto.
  destruct (Hk a s1) as (cs2 & H2 & HP2).
  exists (cs1 ++ cs2). split; [by eapply extends_trans|by apply Forall_app].
Qed.

Lemma issues_tryCatch {A} (m : M A) (h : Error -> M A) :
  issues P m -> (forall e, issues P (h e)) -> issues P (tryCatch m h).
Proof.
  intros Hm Hh s. destruct (Hm s) as (cs1 & H1 & HP1). unfold tryCatch.
  destruct (m s) as [[a|e|] s1]; simpl in *; eauto.
  destruct (Hh e s1) as (cs2 & H2 & HP2).
  exists (cs1 ++ cs2). split; [by eapply extends_trans|by apply Forall_app].
Qed.

Lemma issues_forEach {A B} (xs : list A) (body : B -> A -> M B) :
  (forall acc x, issues P (body acc x)) -> forall acc, issues P (forEach xs acc body).
Proof.
  intros Hbody. induction xs as [|x xs IH]; intros acc; simpl.
  - apply issues_ret.
  - apply issues_bind; [apply Hbody|intros acc'; apply IH].
Qed.

Lemma issues_one {A} (c : Command) (m : M A) :
  P c -> (forall s, history (snd (m s)) = history s ++ [c]) -> issues P m.
Proof.
  intros Hc Hm s. exists [c]. split; [apply Hm|]. by constructor.
Qed.

Lemma issues_ask {A} c (q : Frame -> reply A) : P c -> issues P (ask c q).
Proof. intros Hc. by apply issues_one with c. Qed.

Lemma issues_switchToFrame e : P (CSwitchToFrame e) -> issues P (switchToFrame e).
Proof.
  intros Hc. apply issues_one with (CSwitchToFrame e); [done|]. intros s.
  rewrite switchToFrame_eq. by destruct (f_frames (currentFrame s) !! e).
Qed.

Lemma issues_switchToParentFrame : P CSwitchToParentFrame -> issues P switchToParentFrame.
Proof.
  intros Hc. apply issues_one with CSwitchToParentFrame; [done|]. intros s.
  rewrite switchToParentFrame_eq. by destruct (f_switchToParentFrame (currentFrame s)).
Qed.

Lemma issues_getWindowHandle : P CGetWindowHandle -> issues P getWindowHandle.
Proof. intros Hc. by apply issues_one with CGetWindowHandle. Qed.

Lemma issues_createWindow kind : P (CCreateWindow kind) -> issues P (createWindow kind).
Proof.
  intros Hc. apply issues_one with (CCreateWindow kind); [done|]. intros s.
  unfold createWindow. simpl. by destruct (newWindow (driver s)) as [[h|]|e].
Qed.

Lemma issues_switchToWindow h : P (CSwitchToWindow h) -> issues P (switchToWindow h).
Proof.
  intros Hc. apply issues_one with (CSwitchToWindow h); [done|]. intros s.
  unfold switchToWindow. simpl.
  destruct (bool_decide (h ∈ opened s)); [|done]. by destruct (focus (driver s) h).
Qed.

Lemma issues_url u : P (CUrl u) -> issues P (url u).
Proof. intros Hc. by apply issues_one with (CUrl u). Qed.

Lemma issues_closeWindow : P CCloseWindow -> issues P closeWindow.
Proof. intros Hc. by apply issues_one with CCloseWindow. Qed.

Lemma issues_assert {A} (truthy : A -> bool) value message :
  issues P (assert truthy value message).
Proof.
  destruct value as [a|]; simpl; [|apply issues_throw].
  destruct (truthy a); [apply issues_ret|apply issues_throw].
Qed.

(** The first command of a sequence that starts with a command answered
    by the page. *)
Lemma issues_first_ask {A B} c (q : Frame -> reply A) (k : A -> M B) s :
  (forall a, issues P (k a)) ->
  exists cs, extends s (c :: cs) (snd (bind (ask c q) k s)) /\ Forall P cs.
Proof.
  intros Hk. unfold bind. rewrite ask_eq.
  destruct (liftReply (q (currentFrame s))) as [a|e|].
  - destruct (Hk a (record c s)) as (cs & H & HP). exists cs. split; [|done].
    unfold extends in *. rewrite H. simpl. by rewrite <- app_assoc.
  - exists []. by split.
  - exists []. by split.
Qed.

Lemma issues_first_switchToParentFrame {B} (k : unit -> M B) s :
  (forall a, issues P (k a)) ->
  exists cs,
    extends s (CSwitchToParentFrame :: cs) (snd (bind switchToParentFrame k s))
    /\ Forall P cs.
Proof.
  intros Hk. unfold bind. rewrite switchToParentFrame_eq.
  destruct (f_switchToParentFrame (currentFrame s)) as [[]|e].
  - destruct (Hk tt (set_browsingContext (tail (browsingContext s))
                       (record CSwitchToParentFrame s))) as (cs & H & HP).
    exists cs. split; [|done].
    unfold extends in *. rewrite H. simpl. by rewrite <- app_assoc.
  - exists []. by split.
Qed.

End Issues.

Lemma bind_assoc {A B C} (m : M A) (k : A -> M B) (k' : B -> M C) s :
  bind (bind m k) k' s = bind m (fun a => bind (k a) k') s.
Proof. unfold bind. by destruct (m s) as [[a|e|] s1]. Qed.

(** One step of the proof that a method only sends commands of a kind. *)
Ltac issues_step :=
  first
    [ apply issues_ret | apply issues_throw | apply issues_outOfFuel
    | apply issues_reply | apply issues_assert
    | apply issues_bind; [|intros ?]
    | apply issues_tryCatch; [|intros ?]
    | apply issues_forEach; intros ? ?
    | apply issues_ask; by simpl
    | apply issues_switchToFrame; by simpl
    | apply issues_switchToParentFrame; by simpl
    | apply issues_getWindowHandle; by simpl
    | apply issues_createWindow; by simpl
    | apply issues_switchToWindow; by simpl
    | apply issues_url; by simpl
    | apply issues_closeWindow; by simpl
    | match goal with |- issues _ (if ?c then _ else _) => destruct c end
    | match goal with |- issues _ (match ?x with _ => _ end) => destruct x end
    | assumption ].

Section Sent.

Variable logOrRethrowError : Error -> reply unit.
Variable b : AxeBuilder.
Variable o : RunOptions.

Lemma inject_S fuel browsingContext :
  inject logOrRethrowError b (S fuel) browsingContext
  = (setBrowsingContext browsingContext ;;
     execute (script b) ;;
     frames <- findAll (frameSelector b) ;;
     more <- findAll (iframeSelector b) ;;
     let iframes := frames ++ more in
     if Nat.eqb (length iframes) 0 then ret tt
     else
       forEach iframes tt (fun _ iframe =>
         tryCatch
           (existing <- isExisting iframe ;;
            if negb existing then ret tt
            else
              inject logOrRethrowError b fuel (Some iframe) ;;
              switchToParentFrame)
           (fun error => fun s => (liftReply (logOrRethrowError error), s)))).
Proof. reflexivity. Qed.

(** The frame injector runs no analysis. *)
Lemma issues_inject P fuel :
  (forall c, takesNoOptions c -> P c) ->
  forall browsingContext, issues P (inject logOrRethrowError b fuel browsingContext).
Proof.
  intros HP. induction fuel as [|fuel IH]; intros browsingContext.
  - apply issues_outOfFuel.
  - rewrite inject_S. unfold setBrowsingContext, execute, findAll, isExisting.
    repeat first [ apply IH
                 | apply issues_ask; by apply HP
                 | apply issues_switchToFrame; by apply HP
                 | apply issues_switchToParentFrame; by apply HP
                 | issues_step ].
Qed.

(** The collector hands the options it was given to every partial run. *)
Lemma issues_runPartialRecursive fuel :
  forall context, issues (carries o) (runPartialRecursive b o fuel context).
Proof.
  induction fuel as [|fuel IH]; intros context.
  - apply issues_outOfFuel.
  - rewrite runPartialRecursive_S.
    unfold axeGetFrameContext, axeRunPartial, collectChild, scanChild, find,
      axeSourceInject.
    repeat first [ apply IH | issues_step ].
Qed.

Lemma issues_finishRun partials : issues (carries o) (finishRun b o partials).
Proof. unfold finishRun, axeFinishRun. repeat issues_step. Qed.

End Sent.

(** C3 (the code against the claim): on the sample page, [runPartialRecursive]
    is called for [#b] with the browsing context in [#b], two levels down;
    its caller works in [#a].  The frame context [#gone] cannot be found,
    the [catch] block goes up although no frame was entered, and the call
    returns with the browsing context in the top-level document, above the
    frame of its caller.  Seen from the top: the caller then looks for [#c]
    in the wrong document and records a [null] for a frame that is there;
    without the stale frame context, [#c] is scanned. *)
Theorem context_above_caller_after_lookup_failure :
  path sessionInB = [0; 0]
  /\ fst (runPartialRecursive sampleBuilder emptyOptions 2 anyContext sessionInB)
     = Ok [Some "B"; None]
  /\ path (snd (runPartialRecursive sampleBuilder emptyOptions 2 anyContext sessionInB)) = []
  /\ tail (path sessionInB) = [0]
  /\ fst (runPartialRecursive sampleBuilder emptyOptions 4 anyContext
            (sampleSession docTop docBlank))
     = Ok [Some "T"; Some "A"; Some "B"; None; None; Some "D"]
  /\ fst (runPartialRecursive sampleBuilder emptyOptions 4 anyContext
            (sampleSession docTop' docBlank))
     = Ok [Some "T"; Some "A"; Some "B"; Some "C"; Some "D"].
Proof. repeat split; vm_compute; reflexivity. Qed.

(** C1 (the code against the claim): on the page on which the top-level
    document and the document of [#a] both hold a frame [#c], the stale
    frame context reported in [#b] makes the call for [#b] return with
    the browsing context in the top-level document (the defect of C3).
    The loop of the call for [#a] then looks for its [#c] in the
    top-level document: the subtree of the top-level [#c] is listed
    twice, the frame [#c] inside [#a] is never scanned, and the sequence
    has eight entries where the pre-order listing of the frame tree has
    seven. *)
Theorem collector_lists_wrong_subtree_after_lookup_failure :
  fst (runPartialRecursive sampleBuilder emptyOptions 4 anyContext
         (sampleSession docTop2 docBlank))
  = Ok [Some "T"; Some "A"; Some "B"; None; Some "Ct"; Some "K"; Some "Ct"; Some "K"]
  /\ specPreorder sampleBuilder emptyOptions 4 anyContext docTop2
     = Ok [Some "T"; Some "A"; Some "B"; None; Some "Ca"; Some "Ct"; Some "K"].
Proof. split; vm_compute; reflexivity. Qed.

(** ** The orchestrator *)

Section Orchestrator.

Variable normalizeContext : list Selector -> list Selector -> list string -> ContextObject.
Variable logOrRethrowError : Error -> reply unit.
Variable b : AxeBuilder.
Variable o : RunOptions.

Lemma analyzePromise_eq fuel :
  analyzePromise normalizeContext logOrRethrowError b o fuel
  = (runPartialSupported <- axeSourceInject (axeSource b) ;;
     if negb runPartialSupported || legacyMode b then
       runLegacy logOrRethrowError b o fuel (builderContext normalizeContext b)
     else
       partials <- runPartialRecursive b o fuel (builderContext normalizeContext b) ;;
       tryCatch (finishRun b o partials)
                (fun error => throw (error +:+ troubleshooting))).
Proof. reflexivity. Qed.

Lemma axeSourceInject_eq source s :
  axeSourceInject source s
  = (liftReply (f_sourceInject (currentFrame s) source), record (CSourceInject source) s).
Proof. reflexivity. Qed.

(** C2, as the code has it: whatever the [try] block of the loop throws
    -- the lookup of the frame, the assertion, the switch into the frame,
    the injection or the recursive call -- is caught, one [null] is
    appended in its place, and the [catch] block sends
    [switchToParentFrame] from where the [try] block stopped; the loop
    goes on when the driver accepts that command, and the loop body
    throws only when the driver refuses it.  So the collector throws only
    what its own two scripts throw in the frame it was called in, or the
    error of a [switchToParentFrame] the driver refused.  The errors
    outside the loop reach [analyze]: that of the injection probe, that
    of the collector in the top frame, and that of [finishRun] with the
    troubleshooting pointer added; [analyze] rejects with them or hands
    their message to the callback. *)
Theorem child_errors_become_null :
  (forall recurse fc s e,
      f_find (currentFrame s) (fc_frameSelector fc) = Fails e
      \/ (f_find (currentFrame s) (fc_frameSelector fc) = Returns None
          /\ e = "Expect frame of " +:+ dq +:+ fc_frameSelector fc +:+ dq +:+ " to be defined")
      \/ (exists el,
            f_find (currentFrame s) (fc_frameSelector fc) = Returns (Some el)
            /\ f_frames (currentFrame s) !! el = None /\ e = "no such frame")
      \/ (exists el child,
            f_find (currentFrame s) (fc_frameSelector fc) = Returns (Some el)
            /\ f_frames (currentFrame s) !! el = Some child
            /\ (f_sourceInject child (script b) = Fails e
                \/ exists supported,
                     f_sourceInject child (script b) = Returns supported
                     /\ fst (recurse (fc_frameContext fc)
                               (record (CSourceInject (script b))
                                  (set_browsingContext ((el, child) :: browsingContext s)
                                     (record (CSwitchToFrame el)
                                        (record (CFind (fc_frameSelector fc)) s)))))
                        = Throw e)) ->
      exists s1, scanChild b recurse fc s = (Throw e, s1))
  /\ (forall recurse partials fc s e s1,
      scanChild b recurse fc s = (Throw e, s1) ->
      collectChild b recurse partials fc s
      = match f_switchToParentFrame (currentFrame s1) with
        | Returns _ =>
          (Ok (partials ++ [None]),
           set_browsingContext (tail (browsingContext s1)) (record CSwitchToParentFrame s1))
        | Fails e' => (Throw e', record CSwitchToParentFrame s1)
        end)
  /\ (forall recurse partials fc s e' s',
        collectChild b recurse partials fc s = (Throw e', s') ->
        exists e s1,
          scanChild b recurse fc s = (Throw e, s1)
          /\ f_switchToParentFrame (currentFrame s1) = Fails e'
          /\ s' = record CSwitchToParentFrame s1)
  /\ (forall fuel ctx s e s',
        runPartialRecursive b o fuel ctx s = (Throw e, s') ->
        ((f_getFrameContext (currentFrame s) ctx = Fails e
          \/ exists fcs,
               f_getFrameContext (currentFrame s) ctx = Returns fcs
               /\ f_runPartial (currentFrame s) ctx o = Fails e)
         /\ browsingContext s' = browsingContext s)
        \/ f_switchToParentFrame (currentFrame s') = Fails e)
  /\ (forall fuel s e,
        f_sourceInject (currentFrame s) (axeSource b) = Fails e ->
        analyzePromise normalizeContext logOrRethrowError b o fuel s
        = (Throw e, record (CSourceInject (axeSource b)) s))
  /\ (forall fuel s e s',
        f_sourceInject (currentFrame s) (axeSource b) = Returns true ->
        legacyMode b = false ->
        runPartialRecursive b o fuel (builderContext normalizeContext b) (record (CSourceInject (axeSource b)) s)
        = (Throw e, s') ->
        analyzePromise normalizeContext logOrRethrowError b o fuel s = (Throw e, s'))
  /\ (forall fuel s partials s1 e s',
        f_sourceInject (currentFrame s) (axeSource b) = Returns true ->
        legacyMode b = false ->
        runPartialRecursive b o fuel (builderContext normalizeContext b) (record (CSourceInject (axeSource b)) s)
        = (Ok partials, s1) ->
        finishRun b o partials s1 = (Throw e, s') ->
        analyzePromise normalizeContext logOrRethrowError b o fuel s
        = (Throw (e +:+ troubleshooting), s'))
  /\ (forall fuel s e s',
        analyzePromise normalizeContext logOrRethrowError b o fuel s = (Throw e, s') ->
        analyze normalizeContext logOrRethrowError b o fuel None s
        = Some ({| promise := Rejected e; calls := [] |}, s')
        /\ forall callback,
             analyze normalizeContext logOrRethrowError b o fuel (Some callback) s
             = Some ({| promise := Pending; calls := [(Some e, None)] |}, s')).
Proof.
  split; [apply scanChild_Throw|].
  split.
  { intros recurse partials fc s e s1 H. rewrite collectChild_eq, H.
    unfold bind. rewrite switchToParentFrame_eq.
    by destruct (f_switchToParentFrame (currentFrame s1)) as [[]|e']. }
  split; [apply collectChild_Throw_inv|].
  split; [apply runPartialRecursive_Throw_inv|].
  split.
  { intros fuel s e He. rewrite analyzePromise_eq.
    erewrite bind_Throw; [reflexivity|]. by rewrite axeSourceInject_eq, He. }
  split.
  { intros fuel s e s' Hs Hl Hrun. rewrite analyzePromise_eq.
    erewrite bind_Ok; [|by rewrite axeSourceInject_eq, Hs]. rewrite Hl. simpl.
    by erewrite bind_Throw. }
  split.
  { intros fuel s partials s1 e s' Hs Hl Hrun Hfin. rewrite analyzePromise_eq.
    erewrite bind_Ok; [|by rewrite axeSourceInject_eq, Hs]. rewrite Hl. simpl.
    erewrite bind_Ok; [|exact Hrun]. unfold tryCatch. by rewrite Hfin. }
  intros fuel s e s' H. unfold analyze. rewrite H. done.
Qed.

(** C5, as the code has it: when the run fails and a callback was given,
    the callback receives the message and [null], and the promise is
    neither resolved nor rejected -- it stays pending; without a callback
    the promise is rejected with the error.  When the run succeeds the
    promise is resolved with the results, after the callback, if there is
    one and it returns, has received [null] and the results. *)
Theorem analyze_settlement fuel s s' :
  (forall err,
      analyzePromise normalizeContext logOrRethrowError b o fuel s = (Throw err, s') ->
      (forall callback,
          analyze normalizeContext logOrRethrowError b o fuel (Some callback) s
          = Some ({| promise := Pending; calls := [(Some err, None)] |}, s'))
      /\ analyze normalizeContext logOrRethrowError b o fuel None s
         = Some ({| promise := Rejected err; calls := [] |}, s'))
  /\ (forall results,
        analyzePromise normalizeContext logOrRethrowError b o fuel s = (Ok results, s') ->
        analyze normalizeContext logOrRethrowError b o fuel None s
        = Some ({| promise := Fulfilled (Some results); calls := [] |}, s')
        /\ forall callback,
             callback None (Some results) = Returns tt ->
             analyze normalizeContext logOrRethrowError b o fuel (Some callback) s
             = Some ({| promise := Fulfilled (Some results);
                        calls := [(None, Some results)] |}, s')).
Proof.
  split.
  - intros err H. unfold analyze. rewrite H. done.
  - intros results H. unfold analyze. rewrite H. split; [done|].
    intros callback Hcb. simpl. by rewrite Hcb.
Qed.

Lemma issues_analyzePromise fuel :
  issues (carries o) (analyzePromise normalizeContext logOrRethrowError b o fuel).
Proof.
  rewrite analyzePromise_eq. unfold runLegacy, axeSourceInject, axeRunLegacy.
  repeat first [ apply issues_runPartialRecursive
               | apply issues_finishRun
               | apply issues_inject; by intros []
               | issues_step ].
Qed.

(** C6: [analyzePromise] builds the scan context from the accumulated
    selectors, then sends the engine source to the current (top) frame and
    reads off whether partial runs are supported.  Exactly when they are
    not or the legacy flag is set, it goes on with the legacy runner: the
    frame injector from the top, which goes to the parent frame and
    executes the composed script before it looks for frames, then one
    [axeRunLegacy] with that context and the options, the last command
    sent; the script is the second command when the driver accepts the
    first.  Otherwise it goes on with the collector, whose first command is
    [axeGetFrameContext] with that context, and then with [finishRun] on
    the partial results collected. *)
Theorem analyzePromise_sequence fuel s :
  let s1 := record (CSourceInject (axeSource b)) s in
  let legacy := (runLegacy logOrRethrowError b o (S fuel) (builderContext normalizeContext b)) in
  let partial :=
    (partials <- runPartialRecursive b o (S fuel) (builderContext normalizeContext b) ;;
     tryCatch (finishRun b o partials)
              (fun error => throw (error +:+ troubleshooting))) in
  analyzePromise normalizeContext logOrRethrowError b o (S fuel) s
  = match f_sourceInject (currentFrame s) (axeSource b) with
    | Fails e => (Throw e, s1)
    | Returns supported =>
      if negb supported || legacyMode b then legacy s1 else partial s1
    end
  /\ (exists cs,
        extends s1 (CSwitchToParentFrame :: cs) (snd (legacy s1))
        /\ Forall (carries o) cs
        /\ (f_switchToParentFrame (currentFrame s) = Returns tt ->
            exists cs', cs = CExecute (script b) :: cs'))
  /\ (exists cs,
        extends s1 (CGetFrameContext (builderContext normalizeContext b) :: cs) (snd (partial s1))
        /\ Forall (carries o) cs)
  /\ (forall results s',
        legacy s1 = (Ok results, s') ->
        exists cs s2,
          inject logOrRethrowError b (S fuel) None s1 = (Ok tt, s2)
          /\ extends s1 cs s2 /\ Forall takesNoOptions cs
          /\ f_runLegacy (currentFrame s2) (builderContext normalizeContext b) o = Returns results
          /\ s' = record (CRunLegacy (builderContext normalizeContext b) o) s2)
  /\ (forall results s',
        partial s1 = (Ok results, s') ->
        exists partials s2,
          runPartialRecursive b o (S fuel) (builderContext normalizeContext b) s1 = (Ok partials, s2)
          /\ finishRun b o partials s2 = (Ok results, s')).
Proof.
  intros s1 legacy partial. split.
  { rewrite analyzePromise_eq. unfold bind at 1. rewrite axeSourceInject_eq.
    destruct (f_sourceInject (currentFrame s) (axeSource b)) as [supported|e];
      simpl; [|reflexivity].
    by destruct (negb supported || legacyMode b). }
  split.
  { subst legacy. unfold runLegacy. rewrite inject_S. unfold setBrowsingContext, execute.
    rewrite bind_assoc.
    destruct (f_switchToParentFrame (currentFrame s)) as [[]|e] eqn:Hleave.
    - erewrite bind_Ok; [|by apply switchToParentFrame_Ok].
      rewrite bind_assoc.
      match goal with |- context [bind (ask ?c ?q) ?k ?s0] =>
        destruct (issues_first_ask (carries o) c q k s0) as (cs & Hext & Hcs)
      end.
      { intros []. unfold findAll, isExisting, axeRunLegacy.
        repeat first [ apply issues_inject; by intros [] | issues_step ]. }
      exists (CExecute (script b) :: cs). split.
      { unfold extends in *. rewrite Hext. simpl. by rewrite <- !app_assoc. }
      split; [by constructor|]. intros _. by exists cs.
    - erewrite bind_Throw.
      2: { rewrite switchToParentFrame_eq.
           change (currentFrame s1) with (currentFrame s). by rewrite Hleave. }
      exists []. split; [reflexivity|]. split; [constructor|]. discriminate. }
  split.
  { subst partial. rewrite runPartialRecursive_S. unfold axeGetFrameContext.
    rewrite bind_assoc. apply issues_first_ask. intros fcs.
    unfold axeRunPartial.
    repeat first [ apply issues_runPartialRecursive
                 | apply issues_finishRun
                 | apply issues_forEach; intros ? ?;
                   unfold collectChild, scanChild, find, axeSourceInject
                 | issues_step ]. }
  split.
  { intros results s' H. subst legacy. unfold runLegacy in H.
    apply bind_Ok_inv in H as ([] & s2 & Hinj & Hrun).
    destruct (issues_inject logOrRethrowError b takesNoOptions (S fuel)
                (fun c H => H) None s1) as (cs & Hext & Hcs).
    rewrite Hinj in Hext. simpl in Hext.
    unfold axeRunLegacy in Hrun. rewrite ask_eq in Hrun. injection Hrun as Hrun <-.
    apply liftReply_Ok_inv in Hrun.
    exists cs, s2. done. }
  intros results s' H. subst partial.
  apply bind_Ok_inv in H as (partials & s2 & Hrun & Hfin).
  exists partials, s2. split; [done|].
  unfold tryCatch in Hfin.
  destruct (finishRun b o partials s2) as [[r|e|] s3]; by try discriminate.
Qed.

(** Every run of the engine that [analyze] asks for gets the options
    [analyze] was called with. *)
Lemma analyze_sends_options fuel callback s settled s' :
  analyze normalizeContext logOrRethrowError b o fuel callback s = Some (settled, s') ->
  exists cs, extends s cs s' /\ Forall (carries o) cs.
Proof.
  unfold analyze. destruct (issues_analyzePromise fuel s) as (cs & Hext & Hcs).
  destruct (analyzePromise normalizeContext logOrRethrowError b o fuel s) as [[r|e|] s1];
    intros [= <- <-]; eauto.
Qed.

End Orchestrator.

(** ** The options that reach the engine *)

Section Forwarding.

Variable cssesc : string -> string.

(** C9: [options(o)] makes [this.option] refer to the object [o], so that
    what was accumulated before is no longer what the builder reads; the
    calls of [withRules], [withTags] and [disableRules] (and every other
    call but [options]) that follow leave the reference alone and change
    the object [o] where it lives; [analyze] then runs with the object
    [o] as these later calls have left it. *)
Theorem options_replaces_then_mutated_in_place
    (this : ref) (σ : Store) (b : AxeBuilder) (o : loc) (later : list ConfigCall) :
  builders σ !! this = Some b ->
  forallb (fun c => negb (isOptionsCall c)) later = true ->
  let σ1 := snd (options o this σ) in
  let σ2 := snd (chain cssesc later this σ1) in
  readOption σ1 this = objects σ !! o
  /\ objects σ1 = objects σ
  /\ option_ <$> builders σ2 !! this = Some o
  /\ objects σ2 !! o = applyEffects later <$> objects σ !! o
  /\ (forall l, l ≠ o -> objects σ2 !! l = objects σ !! l)
  /\ readOption σ2 this = applyEffects later <$> objects σ !! o
  /\ (forall normalizeContext logOrRethrowError fuel callback s,
        analyzeMethod normalizeContext logOrRethrowError σ2 this fuel callback s
        = b2 ← builders σ2 !! this;
          o2 ← applyEffects later <$> objects σ !! o;
          analyze normalizeContext logOrRethrowError b2 o2 fuel callback s)
  /\ (forall normalizeContext logOrRethrowError fuel callback s settled s',
        analyzeMethod normalizeContext logOrRethrowError σ2 this fuel callback s
        = Some (settled, s') ->
        exists object cs,
          objects σ !! o = Some object
          /\ extends s cs s'
          /\ Forall (carries (applyEffects later object)) cs).
Proof.
  intros Hb Hlater σ1 σ2.
  assert (Hb1 : builders σ1 !! this = Some (set_option o b)).
  { apply (call_builder cssesc (CallOptions o) this σ b Hb). }
  assert (Ho1 : objects σ1 = objects σ) by reflexivity.
  destruct (chain_in_place cssesc later this σ1 _ Hb1 Hlater) as ((b2 & Hb2 & Hopt) & Hobj & Hother).
  change (option_ (set_option o b)) with o in Hopt, Hobj, Hother.
  change (objects σ1) with (objects σ) in Hobj, Hother.
  fold σ2 in Hb2, Hobj, Hother.
  assert (Hread : readOption σ2 this = applyEffects later <$> objects σ !! o).
  { unfold readOption. rewrite Hb2. simpl. by rewrite Hopt. }
  split; [unfold readOption; by rewrite Hb1|].
  split; [done|].
  split; [by rewrite Hb2; simpl; rewrite Hopt|].
  split; [done|].
  split; [done|].
  split; [done|].
  assert (Hcall : forall nc lre fuel cb s,
             analyzeMethod nc lre σ2 this fuel cb s
             = b2 ← builders σ2 !! this;
               o2 ← applyEffects later <$> objects σ !! o;
               analyze nc lre b2 o2 fuel cb s).
  { intros nc lre fuel cb s. unfold analyzeMethod.
    rewrite Hb2. simpl. by rewrite Hopt, Hobj. }
  split; [exact Hcall|].
  intros nc lre fuel cb s settled s' Hrun. rewrite Hcall, Hb2 in Hrun. simpl in Hrun.
  destruct (objects σ !! o) as [object|]; [|discriminate]. simpl in Hrun.
  destruct (analyze_sends_options nc lre b2 (applyEffects later object) fuel cb s
              settled s' Hrun) as (cs & Hext & Hcs).
  by exists object, cs.
Qed.

End Forwarding.

(** ** More on the configuration methods *)

Section MoreConfigurationFacts.

Variable cssesc : string -> string.

Lemma chain_builder cs this σ b :
  builders σ !! this = Some b ->
  builders (snd (chain cssesc cs this σ)) !! this = Some (applyFieldEffects cssesc cs b).
Proof.
  revert σ b. induction cs as [|c cs IH]; intros σ b Hb; [done|].
  rewrite chain_cons. unfold applyFieldEffects. simpl.
  apply IH. by apply call_builder.
Qed.

Lemma chain_other_builder cs this σ r :
  r ≠ this -> builders (snd (chain cssesc cs this σ)) !! r = builders σ !! r.
Proof.
  intros Hr. revert σ. induction cs as [|c cs IH]; intros σ; [done|].
  rewrite chain_cons, IH. by apply call_other_builder.
Qed.

Lemma applyFieldEffects_snoc cs c b :
  applyFieldEffects cssesc (cs ++ [c]) b
  = fieldEffect cssesc c (applyFieldEffects cssesc cs b).
Proof. unfold applyFieldEffects. by rewrite fold_left_app. Qed.

(** X5: whatever else is called in between, the selectors passed to
    [include], [exclude] and [disableFrame] pile up behind those the
    builder already had, in the order of the calls -- a single selector as
    an array of one, a disabled frame escaped by [cssesc]; the engine
    source is never changed, and the legacy flag is the one of the last
    [setLegacyMode]. *)
Theorem chain_accumulates_in_call_order cs this σ b :
  builders σ !! this = Some b ->
  exists b',
    builders (snd (chain cssesc cs this σ)) !! this = Some b'
    /\ includes b' = includes b ++ includedBy cs
    /\ excludes b' = excludes b ++ excludedBy cs
    /\ disableFrameSelectors b' = disableFrameSelectors b ++ map cssesc (disabledBy cs)
    /\ axeSource b' = axeSource b
    /\ legacyMode b' = default (legacyMode b) (legacySetBy cs).
Proof.
  intros Hb. exists (applyFieldEffects cssesc cs b).
  split; [by apply chain_builder|]. clear Hb.
  induction cs as [|c cs IH] using rev_ind.
  - simpl. by rewrite !app_nil_r.
  - rewrite applyFieldEffects_snoc.
    destruct IH as (Hi & He & Hd & Hs & Hl).
    unfold includedBy, excludedBy, disabledBy, legacySetBy in *.
    rewrite !omap_app.
    destruct c; simpl; rewrite ?app_nil_r, ?Hi, ?He, ?Hd, ?Hs, ?Hl, ?map_app;
      simpl; rewrite <- ?app_assoc; try done.
    rewrite last_snoc. done.
Qed.

Lemma fold_assignRule_lookup (rules : list string) (m : gmap string RuleObject) r :
  fold_left assignRule rules m !! r
  = if bool_decide (r ∈ rules /\ r ≠ "__proto__")
    then Some {| enabled := false |} else m !! r.
Proof.
  revert m. induction rules as [|rule rules IH]; intros m.
  { case_bool_decide as H; [|done]. destruct H as [H _]. by apply elem_of_nil in H. }
  change (fold_left assignRule (rule :: rules) m)
    with (fold_left assignRule rules (assignRule m rule)).
  rewrite IH.
  case_bool_decide as Hn.
  { destruct Hn as [Hin Hne]. rewrite bool_decide_eq_true_2; [done|].
    split; [apply elem_of_cons; by right|done]. }
  unfold assignRule.
  destruct (String.eqb_spec rule "__proto__") as [->|Hrule].
  - rewrite bool_decide_eq_false_2; [done|].
    intros [Hin Hne]. apply Hn. split; [|done].
    apply elem_of_cons in Hin as [?|?]; done.
  - destruct (decide (r = rule)) as [->|Hne].
    + rewrite bool_decide_eq_true_2; [apply lookup_insert_eq|].
      split; [apply elem_of_cons; by left|done].
    + rewrite bool_decide_eq_false_2; [by apply lookup_insert_ne|].
      intros [Hin Hp]. apply Hn. split; [|done].
      apply elem_of_cons in Hin as [?|?]; done.
Qed.

(** X6: [disableRules] does not add to the rules disabled before: it
    replaces the whole [rules] property of the object behind
    [this.option] by an object whose own properties are
    [{ enabled: false }] for each rule of the call -- but for a rule
    named [__proto__], which gets none -- and nothing else; the [runOnly]
    selection and the other properties stay. *)
Theorem disableRules_replaces_rules (disabled : StringOrArray) this σ b o :
  builders σ !! this = Some b ->
  objects σ !! option_ b = Some o ->
  exists o' m,
    readOption (snd (disableRules disabled this σ)) this = Some o'
    /\ runOnly o' = runOnly o
    /\ extra o' = extra o
    /\ rules o' = Some m
    /\ forall r,
         m !! r = if bool_decide (r ∈ toArray disabled /\ r ≠ "__proto__")
                  then Some {| enabled := false |} else None.
Proof.
  intros Hb Ho.
  exists (set_rules (disabledRulesObject (toArray disabled)) o),
         (disabledRulesObject (toArray disabled)).
  split.
  - change (disableRules disabled this σ)
      with (call cssesc (CallDisableRules disabled) this σ).
    unfold readOption.
    rewrite (call_builder cssesc (CallDisableRules disabled) this σ b Hb).
    etransitivity;
      [exact (call_object cssesc (CallDisableRules disabled) this σ b Hb)|].
    by rewrite Ho.
  - repeat split. intros r. unfold disabledRulesObject.
    by rewrite fold_assignRule_lookup, lookup_empty.
Qed.

(** X4: [options] keeps the object it is given, not a copy of it: when
    two builders were given the same object, a rule or tag selection made
    on one of them is the selection the other one runs with. *)
Theorem options_object_is_shared (o : loc) (later : list ConfigCall) t1 t2 σ b1 b2 :
  builders σ !! t1 = Some b1 ->
  builders σ !! t2 = Some b2 ->
  t1 ≠ t2 ->
  forallb (fun c => negb (isOptionsCall c)) later = true ->
  let σ1 := snd (options o t2 (snd (options o t1 σ))) in
  let σ2 := snd (chain cssesc later t1 σ1) in
  readOption σ2 t1 = applyEffects later <$> objects σ !! o
  /\ readOption σ2 t2 = applyEffects later <$> objects σ !! o.
Proof.
  intros H1 H2 Hne Hlater σ1 σ2.
  assert (Hσ1a : builders (snd (options o t1 σ)) !! t1 = Some (set_option o b1)).
  { apply (call_builder cssesc (CallOptions o) t1 σ b1 H1). }
  assert (Hσ1b : builders (snd (options o t1 σ)) !! t2 = Some b2).
  { rewrite <- H2. by apply (call_other_builder cssesc (CallOptions o) t1 σ t2). }
  assert (Ht1 : builders σ1 !! t1 = Some (set_option o b1)).
  { rewrite <- Hσ1a.
    apply (call_other_builder cssesc (CallOptions o) t2 (snd (options o t1 σ)) t1).
    done. }
  assert (Ht2 : builders σ1 !! t2 = Some (set_option o b2)).
  { apply (call_builder cssesc (CallOptions o) t2 (snd (options o t1 σ)) b2 Hσ1b). }
  destruct (chain_in_place cssesc later t1 σ1 _ Ht1 Hlater)
    as ((b1' & Hb1' & Hopt) & Hobj & _).
  change (option_ (set_option o b1)) with o in Hopt, Hobj.
  change (objects σ1) with (objects σ) in Hobj.
  fold σ2 in Hb1', Hobj.
  split.
  - unfold readOption. rewrite Hb1'.
    etransitivity; [|exact Hobj]. simpl. by rewrite Hopt.
  - unfold readOption, σ2.
    rewrite (chain_other_builder later t1 σ1 t2) by done.
    rewrite Ht2. exact Hobj.
Qed.

(** The calls of a chain on one builder leave alone every options object
    the builder never holds. *)
Lemma chain_foreign_object cs this σ b l :
  builders σ !! this = Some b ->
  option_ b ≠ l ->
  Forall (fun c => c ≠ CallOptions l) cs ->
  objects (snd (chain cssesc cs this σ)) !! l = objects σ !! l.
Proof.
  intros Hb Hl Hcs. revert σ b Hb Hl.
  induction Hcs as [|c cs Hc _ IH]; intros σ b Hb Hl; [done|].
  rewrite chain_cons.
  rewrite (IH _ _ (call_builder cssesc c this σ b Hb)).
  - apply (call_other_object cssesc c this σ b l Hb). congruence.
  - destruct c; simpl; try done. intros ->. by apply Hc.
Qed.

Lemma append_empty_r (s : string) : s +:+ "" = s.
Proof.
  induction s as [|c s IH]; [done|].
  change (String c (s +:+ "") = String c s). by rewrite IH.
Qed.

Lemma append_assoc (s1 s2 s3 : string) : (s1 +:+ s2) +:+ s3 = s1 +:+ s2 +:+ s3.
Proof.
  induction s1 as [|c s1 IH]; [done|].
  change (String c ((s1 +:+ s2) +:+ s3) = String c (s1 +:+ s2 +:+ s3)). by rewrite IH.
Qed.

Lemma notDisabled_parts base disabled :
  notDisabled base disabled = base +:+ notParts disabled.
Proof.
  unfold notDisabled. revert base.
  induction disabled as [|d disabled IH]; intros base.
  - symmetry. apply append_empty_r.
  - change (fold_left (fun selector disableFrameSelector =>
                         selector +:+ ":not(" +:+ disableFrameSelector +:+ ")")
                      disabled (base +:+ ":not(" +:+ d +:+ ")")
            = base +:+ ":not(" +:+ d +:+ ")" +:+ notParts disabled).
    rewrite IH. by rewrite !append_assoc.
Qed.

(** X7: the selector for frames is ["frame"] followed by one [:not(...)]
    for each disabled frame, in the order they were disabled, and the one
    for iframes is the same with ["iframe"]; without disabled frames they
    are the bare tag names, and [disableFrame] adds the [:not(...)] of the
    escaped selector at the end of both. *)
Theorem frame_selectors_list_disabled_frames (b : AxeBuilder) (selector : string) :
  frameSelector b = "frame" +:+ notParts (disableFrameSelectors b)
  /\ iframeSelector b = "i" +:+ frameSelector b
  /\ (disableFrameSelectors b = [] ->
      frameSelector b = "frame" /\ iframeSelector b = "iframe")
  /\ frameSelector (fieldEffect cssesc (CallDisableFrame selector) b)
     = frameSelector b +:+ ":not(" +:+ cssesc selector +:+ ")"
  /\ iframeSelector (fieldEffect cssesc (CallDisableFrame selector) b)
     = iframeSelector b +:+ ":not(" +:+ cssesc selector +:+ ")".
Proof.
  unfold frameSelector, iframeSelector.
  split; [apply notDisabled_parts|].
  split; [by rewrite !notDisabled_parts|].
  split; [by intros ->|].
  simpl. unfold notDisabled. rewrite !fold_left_app. done.
Qed.

End MoreConfigurationFacts.

(** ** The constructor *)

Section ConstructionFacts.

Variable Client : Type.
Variable isWebdriverClient : Client -> bool.
Variable requireResolve : string -> reply string.
Variable readFileSync : string -> reply string.

(** X1: a successful [new AxeBuilder] yields an instance that was not in
    the store, with the source resolved, no selectors, no disabled frames,
    the legacy flag off and, as its options, a new empty object that
    nothing else refers to; the builders and objects that were there are
    as they were. *)
Theorem newAxeBuilder_fresh_instance (options : Options Client) σ source :
  isWebdriverClient (client Client options) = true ->
  resolveSource requireResolve readFileSync (o_axeSource Client options) = Returns source ->
  exists this object σ',
    newAxeBuilder Client isWebdriverClient requireResolve readFileSync options σ = (Returns this, σ')
    /\ builders σ !! this = None
    /\ objects σ !! object = None
    /\ builders σ' !! this
       = Some {| axeSource := source; includes := []; excludes := [];
                 option_ := object; disableFrameSelectors := [];
                 legacyMode := false |}
    /\ readOption σ' this = Some emptyOptions
    /\ (forall r, r ≠ this -> builders σ' !! r = builders σ !! r)
    /\ (forall l, l ≠ object -> objects σ' !! l = objects σ !! l).
Proof.
  intros Hclient Hsource. unfold newAxeBuilder. rewrite Hclient, Hsource.
  eexists _, _, _. split; [reflexivity|].
  split; [apply not_elem_of_dom, is_fresh|].
  split; [apply not_elem_of_dom, is_fresh|].
  simpl. split; [apply lookup_insert_eq|].
  split.
  { unfold readOption. simpl. rewrite lookup_insert_eq. simpl. apply lookup_insert_eq. }
  split; intros x Hx; by apply lookup_insert_ne.
Qed.

(** X2: the constructor throws, and leaves the store alone, when the
    client is not a WebdriverIO client -- whatever the source -- and when
    the source cannot be resolved.  A non-empty [axeSource] is taken as it
    is, without a look at the file system; an empty one counts as absent.
    An error of [require.resolve], which is called outside the [try]
    block, is thrown as it is; when reading the file it names fails, the
    error is the fixed message of the constructor, not the one of the
    file system. *)
Theorem newAxeBuilder_errors :
  (forall options σ,
      isWebdriverClient (client Client options) = false ->
      newAxeBuilder Client isWebdriverClient requireResolve readFileSync options σ
      = (Fails "An instantiated WebdriverIO client greater than v5 is required", σ))
  /\ (forall options σ e,
        isWebdriverClient (client Client options) = true ->
        resolveSource requireResolve readFileSync (o_axeSource Client options) = Fails e ->
        newAxeBuilder Client isWebdriverClient requireResolve readFileSync options σ = (Fails e, σ))
  /\ (forall source, source ≠ "" -> resolveSource requireResolve readFileSync (Some source) = Returns source)
  /\ resolveSource requireResolve readFileSync (Some "") = resolveSource requireResolve readFileSync None
  /\ (forall e,
        requireResolve "axe-core" = Fails e ->
        resolveSource requireResolve readFileSync None = Fails e)
  /\ (forall path e,
        requireResolve "axe-core" = Returns path ->
        readFileSync path = Fails e ->
        resolveSource requireResolve readFileSync None
        = Fails "Unable to find axe-core source. Is axe-core installed?")
  /\ (forall path source,
        requireResolve "axe-core" = Returns path ->
        readFileSync path = Returns source ->
        resolveSource requireResolve readFileSync None = Returns source).
Proof.
  split.
  { intros options σ H. unfold newAxeBuilder. by rewrite H. }
  split.
  { intros options σ e H He. unfold newAxeBuilder. by rewrite H, He. }
  split.
  { intros source Hs. simpl. apply String.eqb_neq in Hs. by rewrite Hs. }
  split; [reflexivity|].
  split.
  { intros e He. simpl. unfold readAxeCore. by rewrite He. }
  split.
  - intros path e Hp He. simpl. unfold readAxeCore. by rewrite Hp, He.
  - intros path source Hp Hs. simpl. unfold readAxeCore. by rewrite Hp, Hs.
Qed.

Variable cssesc : string -> string.

(** X3: a builder just constructed shares nothing with the builders that
    were there: whatever is called on it -- short of handing it the
    options object of another builder -- the other builders and the
    options they run with stay as they were. *)
Theorem new_builder_is_separate (options : Options Client) σ this σ1
    (cs : list ConfigCall) other b :
  newAxeBuilder Client isWebdriverClient requireResolve readFileSync options σ = (Returns this, σ1) ->
  builders σ !! other = Some b ->
  is_Some (objects σ !! option_ b) ->
  Forall (fun c => c ≠ CallOptions (option_ b)) cs ->
  this ≠ other
  /\ builders (snd (chain cssesc cs this σ1)) !! other = Some b
  /\ readOption (snd (chain cssesc cs this σ1)) other = readOption σ other.
Proof.
  intros Hnew Hb Ho Hcs. unfold newAxeBuilder in Hnew.
  destruct (isWebdriverClient (client Client options)); [|discriminate].
  destruct (resolveSource requireResolve readFileSync (o_axeSource Client options)) as [source|e]; [|discriminate].
  injection Hnew as <- <-.
  set (this := fresh (dom (builders σ))). set (object := fresh (dom (objects σ))).
  assert (Hthis : this ≠ other).
  { intros Heq. apply (is_fresh (dom (builders σ))).
    fold this. rewrite Heq. apply elem_of_dom. eauto. }
  assert (Hobject : object ≠ option_ b).
  { intros Heq. apply (is_fresh (dom (objects σ))).
    fold object. rewrite Heq. by apply elem_of_dom. }
  split; [done|].
  set (b0 := {| axeSource := source; includes := []; excludes := [];
                option_ := object; disableFrameSelectors := [];
                legacyMode := false |}).
  set (σ1 := {| builders := <[this := b0]> (builders σ);
                objects := <[object := emptyOptions]> (objects σ) |}).
  assert (Hnew : builders σ1 !! this = Some b0) by apply lookup_insert_eq.
  assert (Hother : builders (snd (chain cssesc cs this σ1)) !! other = Some b).
  { rewrite (chain_other_builder cssesc cs this σ1 other) by done.
    simpl. by rewrite lookup_insert_ne. }
  split; [exact Hother|].
  unfold readOption. rewrite Hother, Hb. simpl.
  rewrite (chain_foreign_object cssesc cs this σ1 b0 (option_ b) Hnew Hobject Hcs).
  simpl. by apply lookup_insert_ne.
Qed.

End ConstructionFacts.

(** ** More on what the methods send to the browser *)

Section Windows.

Lemma keepsSession_ret {A} (a : A) : keepsSession (ret a).
Proof. intros s. apply sameSession_refl. Qed.

Lemma keepsSession_throw {A} e : keepsSession (@throw A e).
Proof. intros s. apply sameSession_refl. Qed.

Lemma keepsSession_outOfFuel {A} : keepsSession (@outOfFuel A).
Proof. intros s. apply sameSession_refl. Qed.

Lemma keepsSession_reply {A} (r : reply A) : keepsSession (fun s => (liftReply r, s)).
Proof. intros s. apply sameSession_refl. Qed.

Lemma keepsSession_bind {A B} (m : M A) (k : A -> M B) :
  keepsSession m -> (forall a, keepsSession (k a)) -> keepsSession (bind m k).
Proof.
  intros Hm Hk s. specialize (Hm s). unfold bind.
  destruct (m s) as [[a|e|] s1]; simpl in *; auto.
  eapply sameSession_trans; [exact Hm|apply Hk].
Qed.

Lemma keepsSession_tryCatch {A} (m : M A) (h : Error -> M A) :
  keepsSession m -> (forall e, keepsSession (h e)) -> keepsSession (tryCatch m h).
Proof.
  intros Hm Hh s. specialize (Hm s). unfold tryCatch.
  destruct (m s) as [[a|e|] s1]; simpl in *; auto.
  eapply sameSession_trans; [exact Hm|apply Hh].
Qed.

Lemma keepsSession_forEach {A B} (xs : list A) (body : B -> A -> M B) :
  (forall acc x, keepsSession (body acc x)) ->
  forall acc, keepsSession (forEach xs acc body).
Proof.
  intros Hbody. induction xs as [|x xs IH]; intros acc; simpl.
  - apply keepsSession_ret.
  - apply keepsSession_bind; [apply Hbody|intros acc'; apply IH].
Qed.

Lemma keepsSession_ask {A} c (q : Frame -> reply A) : keepsSession (ask c q).
Proof. intros s. by repeat split. Qed.

Lemma keepsSession_switchToFrame e : keepsSession (switchToFrame e).
Proof.
  intros s. rewrite switchToFrame_eq.
  destruct (f_frames (currentFrame s) !! e); by repeat split.
Qed.

Lemma keepsSession_switchToParentFrame : keepsSession switchToParentFrame.
Proof.
  intros s. rewrite switchToParentFrame_eq.
  destruct (f_switchToParentFrame (currentFrame s)); by repeat split.
Qed.

Lemma keepsSession_assert {A} (truthy : A -> bool) value message :
  keepsSession (assert truthy value message).
Proof.
  destruct value as [a|]; simpl; [|apply keepsSession_throw].
  destruct (truthy a); [apply keepsSession_ret|apply keepsSession_throw].
Qed.

End Windows.

(** One step of the proof that a method leaves the windows alone. *)
Ltac keeps_step :=
  first
    [ apply keepsSession_ret | apply keepsSession_throw | apply keepsSession_outOfFuel
    | apply keepsSession_reply | apply keepsSession_assert
    | apply keepsSession_ask | apply keepsSession_switchToFrame
    | apply keepsSession_switchToParentFrame
    | apply keepsSession_bind; [|intros ?]
    | apply keepsSession_tryCatch; [|intros ?]
    | apply keepsSession_forEach; intros ? ?
    | match goal with |- keepsSession (if ?c then _ else _) => destruct c end
    | match goal with |- keepsSession (match ?x with _ => _ end) => destruct x end
    | assumption ].

Section Traversal.

Variable normalizeContext : list Selector -> list Selector -> list string -> ContextObject.
Variable logOrRethrowError : Error -> reply unit.
Variable b : AxeBuilder.
Variable o : RunOptions.

(** [inject], with the body of its loop by name. *)
Lemma inject_loop fuel browsingContext :
  inject logOrRethrowError b (S fuel) browsingContext
  = (setBrowsingContext browsingContext ;;
     execute (script b) ;;
     frames <- findAll (frameSelector b) ;;
     more <- findAll (iframeSelector b) ;;
     let iframes := frames ++ more in
     if Nat.eqb (length iframes) 0 then ret tt
     else
       forEach iframes tt
         (fun _ iframe =>
            injectChild logOrRethrowError (inject logOrRethrowError b fuel) iframe)).
Proof. reflexivity. Qed.

Lemma keepsSession_inject fuel :
  forall browsingContext, keepsSession (inject logOrRethrowError b fuel browsingContext).
Proof.
  induction fuel as [|fuel IH]; intros browsingContext.
  - apply keepsSession_outOfFuel.
  - rewrite inject_S. unfold setBrowsingContext, execute, findAll, isExisting.
    repeat first [ apply IH | keeps_step ].
Qed.

Lemma keepsSession_runPartialRecursive fuel :
  forall context, keepsSession (runPartialRecursive b o fuel context).
Proof.
  induction fuel as [|fuel IH]; intros context.
  - apply keepsSession_outOfFuel.
  - rewrite runPartialRecursive_S.
    unfold axeGetFrameContext, axeRunPartial, collectChild, scanChild, find,
      axeSourceInject.
    repeat first [ apply IH | keeps_step ].
Qed.

Lemma bind_ext_at {A B} (m : M A) (k1 k2 : A -> M B) s :
  (forall a s1, m s = (Ok a, s1) -> k1 a s1 = k2 a s1) ->
  bind m k1 s = bind m k2 s.
Proof. intros H. unfold bind. destruct (m s) as [[a|e|] s1]; auto. Qed.

Lemma issues_weaken (P Q : Command -> Prop) {A} (m : M A) :
  (forall c, P c -> Q c) -> issues P m -> issues Q m.
Proof.
  intros HPQ Hm s. destruct (Hm s) as (cs & Hext & Hcs).
  exists cs. split; [done|]. by eapply Forall_impl.
Qed.

Lemma issues_inject_commands fuel :
  forall browsingContext,
    issues injectorCommand (inject logOrRethrowError b fuel browsingContext).
Proof.
  induction fuel as [|fuel IH]; intros browsingContext.
  - apply issues_outOfFuel.
  - rewrite inject_S. unfold setBrowsingContext, execute, findAll, isExisting.
    repeat first [ apply IH | issues_step ].
Qed.

Lemma issues_collector_commands fuel :
  forall context, issues collectorCommand (runPartialRecursive b o fuel context).
Proof.
  induction fuel as [|fuel IH]; intros context.
  - apply issues_outOfFuel.
  - rewrite runPartialRecursive_S.
    unfold axeGetFrameContext, axeRunPartial, collectChild, scanChild, find,
      axeSourceInject.
    repeat first [ apply IH | issues_step ].
Qed.

(** X10: the collector and the frame injector only ever move between
    frames: whatever the page answers and however the call ends, the
    active window and the open windows are those of the start, and the
    commands sent are the frame commands of the one and of the other, no
    window command among them. *)
Theorem frame_traversal_keeps_windows fuel context target s :
  sameSession s (snd (runPartialRecursive b o fuel context s))
  /\ sameSession s (snd (inject logOrRethrowError b fuel target s))
  /\ (exists cs,
        extends s cs (snd (runPartialRecursive b o fuel context s))
        /\ Forall collectorCommand cs)
  /\ (exists cs,
        extends s cs (snd (inject logOrRethrowError b fuel target s))
        /\ Forall injectorCommand cs).
Proof.
  split; [apply keepsSession_runPartialRecursive|].
  split; [apply keepsSession_inject|].
  split; [apply issues_collector_commands|apply issues_inject_commands].
Qed.

(** X11: in legacy mode, or when the engine injected has no partial runs,
    [analyzePromise] uses neither [axe.runPartial] nor [axe.finishRun]
    nor a new window: it sends the probe, the commands of the frame
    injector and [axe.run], and the windows stay as they are. *)
Theorem legacy_mode_uses_no_partial_run fuel s :
  legacyMode b = true
  \/ f_sourceInject (currentFrame s) (axeSource b) = Returns false ->
  sameSession s (snd (analyzePromise normalizeContext logOrRethrowError b o fuel s))
  /\ exists cs,
       extends s cs (snd (analyzePromise normalizeContext logOrRethrowError b o fuel s))
       /\ Forall legacyCommand cs.
Proof.
  intros Hlegacy.
  assert (Heq :
    analyzePromise normalizeContext logOrRethrowError b o fuel s
    = (axeSourceInject (axeSource b) ;;
       runLegacy logOrRethrowError b o fuel (builderContext normalizeContext b)) s).
  { rewrite analyzePromise_eq. apply bind_ext_at. intros supported s1 Hprobe.
    destruct Hlegacy as [->|Hf]; [by rewrite orb_true_r|].
    rewrite axeSourceInject_eq, Hf in Hprobe. by injection Hprobe as <- _. }
  rewrite Heq. clear Heq Hlegacy. split.
  - assert (Hkeeps : keepsSession
              (axeSourceInject (axeSource b) ;;
               runLegacy logOrRethrowError b o fuel (builderContext normalizeContext b))).
    { unfold runLegacy, axeSourceInject, axeRunLegacy.
      repeat first [ apply keepsSession_inject | keeps_step ]. }
    apply Hkeeps.
  - assert (Hsends : issues legacyCommand
              (axeSourceInject (axeSource b) ;;
               runLegacy logOrRethrowError b o fuel (builderContext normalizeContext b))).
    { unfold runLegacy, axeSourceInject, axeRunLegacy.
      repeat first
        [ apply (issues_weaken injectorCommand);
          [by intros []|apply issues_inject_commands]
        | issues_step ]. }
    apply Hsends.
Qed.

(** X12: in the default mode, with an engine that has partial runs,
    [analyzePromise] never runs [axe.run] over the page and never uses the
    frame injector: no script is executed with [client.execute], no frame
    is looked for with [$$]. *)
Theorem default_mode_uses_no_legacy_run fuel s :
  legacyMode b = false ->
  f_sourceInject (currentFrame s) (axeSource b) = Returns true ->
  exists cs,
    extends s cs (snd (analyzePromise normalizeContext logOrRethrowError b o fuel s))
    /\ Forall partialCommand cs.
Proof.
  intros Hl Hp.
  assert (Heq :
    analyzePromise normalizeContext logOrRethrowError b o fuel s
    = (axeSourceInject (axeSource b) ;;
       partials <- runPartialRecursive b o fuel (builderContext normalizeContext b) ;;
       tryCatch (finishRun b o partials)
                (fun error => throw (error +:+ troubleshooting))) s).
  { rewrite analyzePromise_eq. apply bind_ext_at. intros supported s1 Hprobe.
    rewrite axeSourceInject_eq, Hp in Hprobe. injection Hprobe as <- _.
    by rewrite Hl. }
  rewrite Heq. clear Heq Hl Hp.
  assert (Hsends : issues partialCommand
            (axeSourceInject (axeSource b) ;;
             partials <- runPartialRecursive b o fuel
                           (builderContext normalizeContext b) ;;
             tryCatch (finishRun b o partials)
                      (fun error => throw (error +:+ troubleshooting)))).
  { unfold axeSourceInject, finishRun, axeFinishRun.
    repeat first
      [ apply (issues_weaken collectorCommand);
        [by intros []|apply issues_collector_commands]
      | issues_step ]. }
  apply Hsends.
Qed.

(** *** Where the collector leaves the browsing context *)





(** *** The frame injector *)

Lemma isExisting_eq iframe s :
  isExisting iframe s
  = (liftReply (f_isExisting (currentFrame s) iframe), record (CIsExisting iframe) s).
Proof. reflexivity. Qed.

Lemma keepsSession_injectChild fuel iframe :
  keepsSession (injectChild logOrRethrowError (inject logOrRethrowError b fuel) iframe).
Proof.
  unfold injectChild, isExisting.
  repeat first [ apply keepsSession_inject | keeps_step ].
Qed.

(** The loop body throws only what [logOrRethrowError] throws. *)
Lemma injectChild_Throw_inv recurse iframe s e s' :
  injectChild logOrRethrowError recurse iframe s = (Throw e, s') ->
  exists error, logOrRethrowError error = Fails e.
Proof.
  unfold injectChild, tryCatch.
  destruct ((existing <- isExisting iframe ;;
             if negb existing then ret tt
             else recurse (Some iframe) ;; switchToParentFrame) s)
    as [[[]|error|] s1]; try discriminate.
  intros [= H _]. exists error. by apply liftReply_Throw_inv.
Qed.

Lemma forEach_injectChild_Throw_inv recurse iframes s e s' :
  forEach iframes tt (fun _ iframe => injectChild logOrRethrowError recurse iframe) s
  = (Throw e, s') ->
  exists error, logOrRethrowError error = Fails e.
Proof.
  revert s. induction iframes as [|iframe iframes IH]; intros s H; [discriminate|].
  simpl in H. apply bind_Throw_inv in H as [H|([] & s1 & _ & H)].
  - by eapply injectChild_Throw_inv.
  - by eapply IH.
Qed.

(** X18: [inject] throws only what one of its own four commands in the
    frame it is called for throws -- the switch into the frame (or, for
    the top-level call, to the parent frame), the execution of the script,
    the two searches for frames -- or what [logOrRethrowError] throws: of
    what happens in the frames below, nothing gets out but through
    [logOrRethrowError]. *)
Theorem inject_throws_own_errors_or_rethrown fuel target s e s' :
  inject logOrRethrowError b fuel target s = (Throw e, s') ->
  (exists el,
      target = Some el
      /\ f_frames (currentFrame s) !! el = None /\ e = "no such frame")
  \/ (target = None /\ f_switchToParentFrame (currentFrame s) = Fails e)
  \/ f_execute (currentFrame (snd (setBrowsingContext target s))) (script b)
     = Fails e
  \/ f_findAll (currentFrame (snd (setBrowsingContext target s)))
       (frameSelector b) = Fails e
  \/ f_findAll (currentFrame (snd (setBrowsingContext target s)))
       (iframeSelector b) = Fails e
  \/ exists error, logOrRethrowError error = Fails e.
Proof.
  destruct fuel as [|fuel]; [discriminate|]. rewrite inject_loop. intros H.
  apply bind_Throw_inv in H as [H|([] & t1 & Hset & H)].
  { destruct target as [el|].
    - left. simpl in H. rewrite switchToFrame_eq in H.
      destruct (f_frames (currentFrame s) !! el) eqn:Hel; [discriminate|].
      exists el. split; [done|]. split; [done|]. congruence.
    - right. left. split; [done|].
      simpl in H. by apply switchToParentFrame_Throw_inv in H as [H _]. }
  do 2 right. rewrite Hset. simpl.
  apply bind_Throw_inv in H as [H|([] & t2 & Hexec & H)].
  { left. unfold execute in H. rewrite ask_eq in H. injection H as H _.
    by apply liftReply_Throw_inv. }
  right. unfold execute in Hexec. rewrite ask_eq in Hexec. injection Hexec as _ <-.
  apply bind_Throw_inv in H as [H|(frames & t3 & Hframes & H)].
  { left. unfold findAll in H. rewrite ask_eq in H. injection H as H _.
    by apply liftReply_Throw_inv. }
  right. unfold findAll in Hframes. rewrite ask_eq in Hframes.
  injection Hframes as _ <-.
  apply bind_Throw_inv in H as [H|(more & t4 & Hmore & H)].
  { left. unfold findAll in H. rewrite ask_eq in H. injection H as H _.
    by apply liftReply_Throw_inv. }
  right. simpl in H.
  destruct (Nat.eqb (length (frames ++ more)) 0); [discriminate|].
  by eapply forEach_injectChild_Throw_inv.
Qed.

(** X19: a frame element that is gone does not stop the injection of the
    frames after it: when [isExisting] answers no, or when the check or
    the switch into the frame fails and [logOrRethrowError] only logs the
    error, the loop body returns with the browsing context where it
    was. *)
Theorem injectChild_skips_missing_frame fuel iframe s :
  f_isExisting (currentFrame s) iframe = Returns false
  \/ (exists error,
        f_isExisting (currentFrame s) iframe = Fails error
        /\ logOrRethrowError error = Returns tt)
  \/ (f_isExisting (currentFrame s) iframe = Returns true
      /\ f_frames (currentFrame s) !! iframe = None
      /\ logOrRethrowError "no such frame" = Returns tt) ->
  exists s',
    injectChild logOrRethrowError (inject logOrRethrowError b (S fuel)) iframe s
    = (Ok tt, s')
    /\ browsingContext s' = browsingContext s
    /\ sameSession s s'.
Proof.
  intros H. unfold injectChild, tryCatch.
  destruct H as [H|[(error & H & Hlog)|(H & Hchild & Hlog)]].
  - erewrite bind_Ok; [|by rewrite isExisting_eq, H].
    eexists. by repeat split.
  - erewrite bind_Throw; [|by rewrite isExisting_eq, H].
    rewrite Hlog. eexists. by repeat split.
  - erewrite bind_Ok; [|by rewrite isExisting_eq, H]. cbv beta. change (negb true) with false. cbv iota.
    erewrite bind_Throw.
    2: { rewrite inject_loop. apply bind_Throw. simpl.
         by rewrite switchToFrame_eq, currentFrame_record, Hchild. }
    rewrite Hlog. eexists. by repeat split.
Qed.

(** X20: the [catch] block of the loop does not go back up: when the
    script fails inside a frame that was entered and [logOrRethrowError]
    only logs the error, the loop body returns with the browsing context
    still inside that frame. *)
Theorem injectChild_stays_in_failed_frame fuel iframe child error s :
  f_isExisting (currentFrame s) iframe = Returns true ->
  f_frames (currentFrame s) !! iframe = Some child ->
  f_execute child (script b) = Fails error ->
  logOrRethrowError error = Returns tt ->
  exists s',
    injectChild logOrRethrowError (inject logOrRethrowError b (S fuel)) iframe s
    = (Ok tt, s')
    /\ browsingContext s' = (iframe, child) :: browsingContext s.
Proof.
  intros H Hchild Hexec Hlog. unfold injectChild, tryCatch.
  erewrite bind_Ok; [|by rewrite isExisting_eq, H]. cbv beta. change (negb true) with false. cbv iota.
  erewrite bind_Throw.
  2: { rewrite inject_loop.
       erewrite bind_Ok;
         [|simpl; by rewrite switchToFrame_eq, currentFrame_record, Hchild].
       apply bind_Throw. unfold execute.
       by rewrite ask_eq, currentFrame_entered, Hexec. }
  rewrite Hlog. eexists. by split.
Qed.

(** X17: on a page where the script runs in every frame and every frame
    element listed is gone or can be entered and left again, [inject] with
    fuel for the depth of the page returns, and leaves the browsing
    context in the frame it was called for: each frame entered has been
    left again. *)
Theorem inject_returns_in_its_frame n :
  forall fuel target s t,
    n <= fuel ->
    setBrowsingContext target s = (Ok tt, t) ->
    injectableWithin b n (currentFrame t) ->
    exists s',
      inject logOrRethrowError b fuel target s = (Ok tt, s')
      /\ browsingContext s' = browsingContext t
      /\ sameSession s s'.
Proof.
  induction n as [|n IH]; intros fuel bc s t Hfuel Hset Hinj; [destruct Hinj|].
  destruct fuel as [|fuel]; [lia|]. assert (Hn : n <= fuel) by lia. clear Hfuel.
  destruct Hinj as (Hexec & frames & more & Hframes & Hmore & Hall).
  assert (Hexists : exists s',
             inject logOrRethrowError b (S fuel) bc s = (Ok tt, s')
             /\ browsingContext s' = browsingContext t).
  2: { destruct Hexists as (s' & Hrun & Hbc). exists s'. split; [done|].
       split; [done|]. pose proof (keepsSession_inject (S fuel) bc s) as Hk.
       by rewrite Hrun in Hk. }
  rewrite inject_loop.
  erewrite bind_Ok; [|exact Hset].
  erewrite bind_Ok; [|unfold execute; by rewrite ask_eq, Hexec].
  erewrite bind_Ok; [|unfold findAll; by rewrite ask_eq, currentFrame_record, Hframes].
  erewrite bind_Ok;
    [|unfold findAll; by rewrite ask_eq, !currentFrame_record, Hmore].
  cbv zeta.
  destruct (Nat.eqb (length (frames ++ more)) 0); [by eexists|].
  set (t' := record (CFindAll (iframeSelector b))
               (record (CFindAll (frameSelector b)) (record (CExecute (script b)) t))).
  destruct (forEach_Forall _
              (fun u => browsingContext u = browsingContext t
                        /\ sameSession t u)
              (frames ++ more)
              (fun _ iframe =>
                 injectChild logOrRethrowError (inject logOrRethrowError b fuel) iframe)
              Hall) with (acc := tt) (s := t') as ([] & s' & Hloop & Hbc & _).
  - intros [] iframe u Hiframe [Hbcu Htu].
    pose proof (currentFrame_same t u Htu Hbcu) as Hcur.
    destruct Hiframe as [Hgone|(Hthere & child & Hchild & Hleave & Hinj)].
    + unfold injectChild, tryCatch.
      erewrite bind_Ok; [|by rewrite isExisting_eq, Hcur, Hgone].
      eexists _, _. split; [reflexivity|]. split; [done|]. auto with session.
    + destruct (IH fuel (Some iframe) (record (CIsExisting iframe) u)
                  (set_browsingContext
                     ((iframe, child) :: browsingContext u)
                     (record (CSwitchToFrame iframe) (record (CIsExisting iframe) u)))
                  Hn) as (v & Hrun & Hbcv & Huv).
      { simpl. by rewrite switchToFrame_eq, currentFrame_record, Hcur, Hchild. }
      { exact Hinj. }
      unfold injectChild, tryCatch.
      erewrite bind_Ok; [|by rewrite isExisting_eq, Hcur, Hthere].
      cbv beta. change (negb true) with false. cbv iota.
      erewrite bind_Ok; [|exact Hrun].
      cbv beta. rewrite switchToParentFrame_Ok.
      2: { unfold currentFrame. rewrite Hbcv. exact Hleave. }
      eexists _, _. split; [reflexivity|]. split.
      * simpl. by rewrite Hbcv.
      * apply sameSession_set, sameSession_record.
        eapply sameSession_trans; [exact Htu|]. exact Huv.
  - by split.
  - exists s'. by split.
Qed.

End Traversal.

(** ** More on the result finisher and on [analyze] *)

Section FinisherFacts.

Variable normalizeContext : list Selector -> list Selector -> list string -> ContextObject.
Variable logOrRethrowError : Error -> reply unit.
Variable b : AxeBuilder.
Variable o : RunOptions.

(** X13: when [createWindow] gives no handle -- none at all, or the empty
    string -- [finishRun] throws the hint at popup blockers after two
    commands: no window is switched to, the active window and the
    browsing context are those of the start; [analyzePromise] adds the
    troubleshooting pointer. *)
Theorem finishRun_without_handle partials s :
  newWindow (driver s) = Returns None \/ newWindow (driver s) = Returns (Some "") ->
  exists s',
    finishRun b o partials s
    = (Throw "Please make sure that you have popup blockers disabled.", s')
    /\ tryCatch (finishRun b o partials) (fun error => throw (error +:+ troubleshooting)) s
       = (Throw ("Please make sure that you have popup blockers disabled."
                 +:+ troubleshooting), s')
    /\ window s' = window s
    /\ browsingContext s' = browsingContext s
    /\ extends s [CGetWindowHandle; CCreateWindow "tab"] s'.
Proof.
  intros Hnew.
  assert (Hrun : exists s',
             finishRun b o partials s
             = (Throw "Please make sure that you have popup blockers disabled.", s')
             /\ window s' = window s
             /\ browsingContext s' = browsingContext s
             /\ extends s [CGetWindowHandle; CCreateWindow "tab"] s').
  { unfold finishRun. erewrite bind_Ok; [|reflexivity].
    destruct Hnew as [Hnew|Hnew].
    - erewrite bind_Ok; [|rewrite createWindow_eq; simpl driver; by rewrite Hnew].
      erewrite bind_Throw; [|reflexivity].
      eexists. split; [reflexivity|]. repeat split.
      unfold extends. simpl. by rewrite <- app_assoc.
    - erewrite bind_Ok; [|rewrite createWindow_eq; simpl driver; by rewrite Hnew].
      erewrite bind_Throw; [|reflexivity].
      eexists. split; [reflexivity|]. repeat split.
      unfold extends. simpl. by rewrite <- app_assoc. }
  destruct Hrun as (s' & Hrun & Hw & Hbc & Hext).
  exists s'. split; [done|]. split; [|done].
  unfold tryCatch. by rewrite Hrun.
Qed.

(** X14: when the new window cannot be switched to, or the blank page
    cannot be loaded in it, [finishRun] throws the driver's message behind
    the hint at the browser drivers; the merge is not attempted, and the
    new window is left open. *)
Theorem finishRun_switch_failure partials s h e :
  newWindow (driver s) = Returns (Some h) ->
  h ≠ "" ->
  focus (driver s) h = Fails e
  \/ (focus (driver s) h = Returns tt
      /\ navigate (driver s) h "about:blank" = Fails e) ->
  exists s' cs,
    finishRun b o partials s = (Throw (switchToWindowFailed +:+ e), s')
    /\ extends s (CGetWindowHandle :: CCreateWindow "tab" :: CSwitchToWindow h :: cs) s'
    /\ (cs = [] \/ cs = [CUrl "about:blank"])
    /\ h ∈ opened s'.
Proof.
  clear normalizeContext logOrRethrowError.
  intros Hnew Hh Hfail. unfold finishRun.
  erewrite bind_Ok; [|reflexivity].
  erewrite bind_Ok; [|rewrite createWindow_eq; simpl driver; by rewrite Hnew].
  erewrite bind_Ok.
  2: { simpl. unfold truthyHandle. apply String.eqb_neq in Hh. by rewrite Hh. }
  destruct Hfail as [Hfocus|[Hfocus Hnav]].
  - erewrite bind_Throw.
    2: { unfold tryCatch. erewrite bind_Throw; [reflexivity|].
         rewrite switchToWindow_eq. simpl driver. simpl opened.
         rewrite bool_decide_eq_true_2 by set_solver. by rewrite Hfocus. }
    eexists _, []. split; [reflexivity|]. split.
    + unfold extends. simpl. by rewrite <- !app_assoc.
    + split; [by left|]. simpl. set_solver.
  - erewrite bind_Throw.
    2: { unfold tryCatch. erewrite bind_Ok.
         2: { rewrite switchToWindow_eq. simpl driver. simpl opened.
              rewrite bool_decide_eq_true_2 by set_solver. by rewrite Hfocus. }
         unfold url. simpl. rewrite Hnav. reflexivity. }
    eexists _, [CUrl "about:blank"]. split; [reflexivity|]. split.
    + unfold extends. simpl. by rewrite <- !app_assoc.
    + split; [by right|]. simpl. set_solver.
Qed.

(** X16: a callback that throws when it is handed the results is called a
    second time, with the message of its own error, and the promise is
    never settled: the exception skips [resolve] and lands in the
    [.catch] of the same chain. *)
Theorem analyze_callback_throwing_on_results fuel s s' results
    (callback : CallbackFunction) err :
  analyzePromise normalizeContext logOrRethrowError b o fuel s = (Ok results, s') ->
  callback None (Some results) = Fails err ->
  analyze normalizeContext logOrRethrowError b o fuel (Some callback) s
  = Some ({| promise := Pending;
             calls := [(None, Some results); (Some err, None)] |}, s').
Proof.
  intros Hrun Hcb. unfold analyze. rewrite Hrun. simpl. by rewrite Hcb.
Qed.

End FinisherFacts.

(** ** The properties on the sample pages *)

Lemma selection_last_call_wins_witness :
  readOption
    (snd (chain (fun s => s)
            (map asCall ([SelectTags (Arr ["wcag2a"; "wcag2aa"])] ++ [SelectRules (Str "label")]))
            0 sampleStore)) 0
  = Some {| runOnly := Some {| ro_type := "rule"; ro_values := ["label"] |};
            rules := None; extra := ∅ |}.
Proof.
  apply (selection_last_call_wins (fun s => s)
           [SelectTags (Arr ["wcag2a"; "wcag2aa"])] (SelectRules (Str "label"))
           0 sampleStore sampleBuilder emptyOptions); reflexivity.
Defined.

Lemma options_replaces_then_mutated_in_place_witness :
  readOption
    (snd (chain (fun s => s)
            [CallWithRules (Str "label"); CallDisableRules (Arr ["color-contrast"])]
            0 (snd (options 1 0 sampleStore2)))) 0
  = Some {| runOnly := Some {| ro_type := "rule"; ro_values := ["label"] |};
            rules := Some (disabledRulesObject ["color-contrast"]);
            extra := {[ "reporter" := "v2" ]} |}.
Proof.
  destruct (options_replaces_then_mutated_in_place (fun s => s) 0 sampleStore2
              sampleBuilder 1
              [CallWithRules (Str "label"); CallDisableRules (Arr ["color-contrast"])]
              eq_refl eq_refl) as (_ & _ & _ & _ & _ & H & _).
  rewrite H. reflexivity.
Defined.

Lemma setLegacyMode_default_and_chaining_witness :
  legacyMode <$> builders (snd (setLegacyMode None 0 sampleStore)) !! 0 = Some true
  /\ fst (chain (fun s => s) [CallInclude (Str "main"); CallSetLegacyMode None]
            0 sampleStore) = 0.
Proof.
  destruct (setLegacyMode_default_and_chaining (fun s => s) 0 sampleStore sampleBuilder
              eq_refl) as (_ & H1 & _ & _ & H2).
  split; [exact H1|apply H2].
Defined.

(** Against C2 as it is stated: the frame [#s] is scanned, the call for
    it throws when the driver refuses to leave the frame, and so does the
    [catch] block of the caller: the collector returns no sequence, it
    throws, with the browsing context still inside [#s]. *)
Lemma child_error_leaves_collector :
  f_getFrameContext docTopS anyContext = Returns [frameContextOf "#s"]
  /\ f_runPartial docTopS anyContext emptyOptions = Returns "T"
  /\ fst (scanChild sampleBuilder (runPartialRecursive sampleBuilder emptyOptions 3)
            (frameContextOf "#s") (sampleSession docTopS docBlank))
     = Throw "unexpected alert open"
  /\ fst (runPartialRecursive sampleBuilder emptyOptions 4 anyContext
            (sampleSession docTopS docBlank))
     = Throw "unexpected alert open"
  /\ path (snd (runPartialRecursive sampleBuilder emptyOptions 4 anyContext
                  (sampleSession docTopS docBlank))) = [0].
Proof. repeat split; vm_compute; reflexivity. Qed.

Lemma child_errors_become_null_witness :
  fst (collectChild sampleBuilder (runPartialRecursive sampleBuilder emptyOptions 1)
         [Some "B"] (frameContextOf "#gone") sessionInB)
  = Ok [Some "B"; None]
  /\ f_switchToParentFrame
       (currentFrame (snd (runPartialRecursive sampleBuilder emptyOptions 4 anyContext
                             (sampleSession docTopS docBlank))))
     = Fails "unexpected alert open".
Proof.
  destruct (child_errors_become_null sampleNormalizeContext sampleLogOrRethrowError
              sampleBuilder emptyOptions) as (_ & H1 & _ & H3 & _).
  split.
  - rewrite (H1 (runPartialRecursive sampleBuilder emptyOptions 1) [Some "B"]
               (frameContextOf "#gone") sessionInB "no such element"
               (snd (scanChild sampleBuilder (runPartialRecursive sampleBuilder emptyOptions 1)
                       (frameContextOf "#gone") sessionInB)) eq_refl).
    reflexivity.
  - destruct (H3 4 anyContext (sampleSession docTopS docBlank) "unexpected alert open"
                (snd (runPartialRecursive sampleBuilder emptyOptions 4 anyContext
                        (sampleSession docTopS docBlank))) eq_refl)
      as [[[H|(fcs & _ & H)] _]|H]; [discriminate H|discriminate H|exact H].
Defined.

Lemma finishRun_merge_failure_keeps_temporary_window_witness :
  exists s',
    finishRun sampleBuilder emptyOptions [Some "T"] (sampleSession docTop docBlankFailing)
    = (Throw "finishRun failed", s')
    /\ window s' = "w1" /\ "w1" ∈ opened s'
    /\ window (sampleSession docTop docBlankFailing) = "w0".
Proof.
  destruct (finishRun_merge_failure_keeps_temporary_window sampleBuilder emptyOptions
              [Some "T"] (sampleSession docTop docBlankFailing) "w1" "finishRun failed")
    as (s' & Hrun & _ & Hwin & Hopen & _); try reflexivity; [discriminate|].
  exists s'. repeat split; assumption.
Defined.

Lemma analyze_callback_failure_not_resolved :
  fst <$> analyze sampleNormalizeContext sampleLogOrRethrowError sampleBuilder
            emptyOptions 1 (Some (fun _ _ => Returns tt)) (sampleSession docBroken docBlank)
  = Some {| promise := Pending; calls := [(Some "script error", None)] |}
  /\ Pending <> Fulfilled None.
Proof. split; [reflexivity|discriminate]. Qed.

Lemma analyze_settlement_witness :
  fst <$> analyze sampleNormalizeContext sampleLogOrRethrowError sampleBuilder emptyOptions 1
            (Some (fun _ _ => Returns tt)) (sampleSession docBroken docBlank)
  = Some {| promise := Pending; calls := [(Some "script error", None)] |}
  /\ fst <$> analyze sampleNormalizeContext sampleLogOrRethrowError sampleBuilder emptyOptions 1
               None (sampleSession docBroken docBlank)
     = Some {| promise := Rejected "script error"; calls := [] |}
  /\ fst <$> analyze sampleNormalizeContext sampleLogOrRethrowError sampleBuilder emptyOptions 4
               (Some (fun _ _ => Returns tt)) (sampleSession docTop' docBlank)
     = Some {| promise := Fulfilled (Some "report"); calls := [(None, Some "report")] |}.
Proof.
  destruct (analyze_settlement sampleNormalizeContext sampleLogOrRethrowError sampleBuilder
              emptyOptions 1 (sampleSession docBroken docBlank)
              (snd (analyzePromise sampleNormalizeContext sampleLogOrRethrowError
                      sampleBuilder emptyOptions 1 (sampleSession docBroken docBlank))))
    as [Hfail _].
  destruct (Hfail "script error" eq_refl) as [Hcb Hnone].
  destruct (analyze_settlement sampleNormalizeContext sampleLogOrRethrowError sampleBuilder
              emptyOptions 4 (sampleSession docTop' docBlank)
              (snd (analyzePromise sampleNormalizeContext sampleLogOrRethrowError
                      sampleBuilder emptyOptions 4 (sampleSession docTop' docBlank))))
    as [_ Hok].
  assert (Hrun : analyzePromise sampleNormalizeContext sampleLogOrRethrowError
                   sampleBuilder emptyOptions 4 (sampleSession docTop' docBlank)
                 = (Ok "report",
                    snd (analyzePromise sampleNormalizeContext sampleLogOrRethrowError
                           sampleBuilder emptyOptions 4 (sampleSession docTop' docBlank))))
    by (vm_compute; reflexivity).
  destruct (Hok "report" Hrun) as [_ Hok'].
  rewrite Hcb, Hnone, (Hok' (fun _ _ => Returns tt) eq_refl). repeat split.
Defined.

Lemma analyzePromise_sequence_witness :
  exists partials s2,
    runPartialRecursive sampleBuilder emptyOptions 4
      (sampleNormalizeContext [] [] [])
      (record (CSourceInject "axe") (sampleSession docTop' docBlank))
    = (Ok partials, s2)
    /\ fst (finishRun sampleBuilder emptyOptions partials s2) = Ok "report".
Proof.
  destruct (analyzePromise_sequence sampleNormalizeContext sampleLogOrRethrowError
              sampleBuilder emptyOptions 3 (sampleSession docTop' docBlank))
    as (_ & _ & _ & _ & Hpartial).
  destruct (Hpartial "report"
              (snd (analyzePromise sampleNormalizeContext sampleLogOrRethrowError
                      sampleBuilder emptyOptions 4 (sampleSession docTop' docBlank))))
    as (partials & s2 & Hrun & Hfin).
  - vm_compute. reflexivity.
  - exists partials, s2. split; [exact Hrun|]. by rewrite Hfin.
Defined.

(** ** The further properties on the sample pages *)

Lemma newAxeBuilder_fresh_instance_witness :
  exists this object σ',
    newAxeBuilder unit (fun _ => true) (fun _ => Fails "not installed")
      (fun _ => Fails "no file") {| client := tt; o_axeSource := Some "axe" |} sampleStore
    = (Returns this, σ')
    /\ builders sampleStore !! this = None
    /\ objects sampleStore !! object = None
    /\ readOption σ' this = Some emptyOptions.
Proof.
  destruct (newAxeBuilder_fresh_instance unit (fun _ => true) (fun _ => Fails "not installed")
              (fun _ => Fails "no file") {| client := tt; o_axeSource := Some "axe" |}
              sampleStore "axe" eq_refl eq_refl)
    as (this & object & σ' & Hnew & Hthis & Hobject & _ & Hread & _).
  exists this, object, σ'. repeat split; assumption.
Defined.

Lemma newAxeBuilder_errors_witness :
  resolveSource (fun _ => Returns "node_modules/axe-core/axe.js")
    (fun _ => Fails "ENOENT") None
  = Fails "Unable to find axe-core source. Is axe-core installed?"
  /\ resolveSource (fun _ => Fails "Cannot find module 'axe-core'")
       (fun _ => Fails "ENOENT") None
     = Fails "Cannot find module 'axe-core'".
Proof.
  destruct (newAxeBuilder_errors unit (fun _ => true)
              (fun _ => Returns "node_modules/axe-core/axe.js") (fun _ => Fails "ENOENT"))
    as (_ & _ & _ & _ & _ & H & _).
  destruct (newAxeBuilder_errors unit (fun _ => true)
              (fun _ => Fails "Cannot find module 'axe-core'") (fun _ => Fails "ENOENT"))
    as (_ & _ & _ & _ & H' & _).
  split.
  - exact (H "node_modules/axe-core/axe.js" "ENOENT" eq_refl eq_refl).
  - exact (H' "Cannot find module 'axe-core'" eq_refl).
Defined.

Lemma new_builder_is_separate_witness :
  readOption
    (snd (chain (fun s => s) [CallWithRules (Str "label")] 1
            (snd (newAxeBuilder unit (fun _ => true) (fun _ => Fails "not installed")
                    (fun _ => Fails "no file")
                    {| client := tt; o_axeSource := Some "axe" |} sampleStore)))) 0
  = readOption sampleStore 0.
Proof.
  destruct (new_builder_is_separate unit (fun _ => true) (fun _ => Fails "not installed")
              (fun _ => Fails "no file") (fun s => s)
              {| client := tt; o_axeSource := Some "axe" |} sampleStore 1
              (snd (newAxeBuilder unit (fun _ => true) (fun _ => Fails "not installed")
                      (fun _ => Fails "no file")
                      {| client := tt; o_axeSource := Some "axe" |} sampleStore))
              [CallWithRules (Str "label")] 0 sampleBuilder)
    as (_ & _ & H).
  - reflexivity.
  - reflexivity.
  - by eexists.
  - repeat constructor. discriminate.
  - exact H.
Defined.

Lemma options_object_is_shared_witness :
  readOption
    (snd (chain (fun s => s) [CallWithTags (Str "wcag2a")] 0
            (snd (options 1 1 (snd (options 1 0 sampleStore3))))))
    1
  = Some {| runOnly := Some {| ro_type := "tag"; ro_values := ["wcag2a"] |};
            rules := None; extra := ∅ |}.
Proof.
  destruct (options_object_is_shared (fun s => s) 1 [CallWithTags (Str "wcag2a")]
              0 1 sampleStore3 sampleBuilder
              {| axeSource := "axe"; includes := []; excludes := []; option_ := 1;
                 disableFrameSelectors := []; legacyMode := false |}
              eq_refl eq_refl) as [_ H]; [discriminate|reflexivity|].
  rewrite H. reflexivity.
Defined.

Lemma chain_accumulates_in_call_order_witness :
  exists b',
    builders (snd (chain (fun s => s)
                     [CallInclude (Str "main"); CallDisableFrame "#ad";
                      CallInclude (Arr ["#frame"; "h1"]); CallSetLegacyMode None]
                     0 sampleStore)) !! 0 = Some b'
    /\ includes b' = [["main"]; ["#frame"; "h1"]]
    /\ disableFrameSelectors b' = ["#ad"]
    /\ legacyMode b' = true.
Proof.
  destruct (chain_accumulates_in_call_order (fun s => s)
              [CallInclude (Str "main"); CallDisableFrame "#ad";
               CallInclude (Arr ["#frame"; "h1"]); CallSetLegacyMode None]
              0 sampleStore sampleBuilder eq_refl)
    as (b' & Hb' & Hi & _ & Hd & _ & Hl).
  exists b'. repeat split; assumption.
Defined.

Lemma disableRules_replaces_rules_witness :
  exists o' m,
    readOption
      (snd (disableRules (Arr ["color-contrast"; "__proto__"; "label"]) 0 sampleStore2)) 0
    = Some o'
    /\ runOnly o' = Some {| ro_type := "tag"; ro_values := ["wcag2a"] |}
    /\ rules o' = Some m
    /\ m !! "label" = Some {| enabled := false |}
    /\ m !! "__proto__" = None
    /\ m !! "image-alt" = None.
Proof.
  destruct (disableRules_replaces_rules (fun s => s)
              (Arr ["color-contrast"; "__proto__"; "label"])
              0 sampleStore2 sampleBuilder
              (set_runOnly {| ro_type := "tag"; ro_values := ["wcag2a"] |} emptyOptions)
              eq_refl eq_refl) as (o' & m & Hread & Hrun & _ & Hrules & Hm).
  exists o', m. split; [exact Hread|]. split; [exact Hrun|]. split; [exact Hrules|].
  split; [exact (Hm "label")|]. split; [exact (Hm "__proto__")|exact (Hm "image-alt")].
Defined.

Lemma frame_selectors_list_disabled_frames_witness :
  frameSelector sampleBuilder = "frame" /\ iframeSelector sampleBuilder = "iframe".
Proof.
  destruct (frame_selectors_list_disabled_frames (fun s => s) sampleBuilder "#ad")
    as (_ & _ & H & _).
  exact (H eq_refl).
Defined.


(** The sample page without the stale frame context, to the depth needed. *)
Ltac sample_reachable :=
  repeat first
    [ progress (cbv; intros)
    | match goal with H : Returns _ = Returns _ |- _ => injection H as <- end
    | apply List.Forall_nil
    | apply List.Forall_cons
    | do 2 eexists; split; [reflexivity|]; split; [reflexivity|]
    | split; [reflexivity|] ].

Lemma runPartialRecursive_reachable_witness :
  exists r s',
    runPartialRecursive sampleBuilder emptyOptions 3 anyContext
      (sampleSession docTop' docBlank) = (r, s')
    /\ sameSession (sampleSession docTop' docBlank) s'
    /\ landed r (sampleSession docTop' docBlank) s'.
Proof.
  apply (runPartialRecursive_reachable sampleBuilder emptyOptions 3 3 anyContext
           (sampleSession docTop' docBlank)); [|lia].
  sample_reachable.
Defined.

Lemma runPartialRecursive_lists_reachable_tree_in_preorder_witness :
  fst (runPartialRecursive sampleBuilder emptyOptions 3 anyContext
         (sampleSession docTop' docBlank))
  = Ok [Some "T"; Some "A"; Some "B"; Some "C"; Some "D"].
Proof.
  destruct (runPartialRecursive_lists_reachable_tree_in_preorder sampleBuilder
              emptyOptions 3 3 anyContext (sampleSession docTop' docBlank)) as [H _];
    [|lia|].
  - sample_reachable.
  - rewrite H. reflexivity.
Defined.

Lemma legacy_mode_uses_no_partial_run_witness :
  exists cs,
    extends (sampleSession docTop' docBlank) cs
      (snd (analyzePromise sampleNormalizeContext sampleLogOrRethrowError
              (set_legacyMode true sampleBuilder) emptyOptions 4
              (sampleSession docTop' docBlank)))
    /\ Forall legacyCommand cs.
Proof.
  destruct (legacy_mode_uses_no_partial_run sampleNormalizeContext sampleLogOrRethrowError
              (set_legacyMode true sampleBuilder) emptyOptions 4
              (sampleSession docTop' docBlank)) as [_ H]; [by left|].
  exact H.
Defined.

Lemma default_mode_uses_no_legacy_run_witness :
  exists cs,
    extends (sampleSession docTop' docBlank) cs
      (snd (analyzePromise sampleNormalizeContext sampleLogOrRethrowError
              sampleBuilder emptyOptions 4 (sampleSession docTop' docBlank)))
    /\ Forall partialCommand cs.
Proof.
  apply (default_mode_uses_no_legacy_run sampleNormalizeContext sampleLogOrRethrowError
           sampleBuilder emptyOptions 4 (sampleSession docTop' docBlank));
    reflexivity.
Defined.

Lemma finishRun_without_handle_witness :
  exists s',
    finishRun sampleBuilder emptyOptions [Some "T"] blockedSession
    = (Throw "Please make sure that you have popup blockers disabled.", s')
    /\ window s' = "w0".
Proof.
  destruct (finishRun_without_handle sampleBuilder emptyOptions [Some "T"] blockedSession)
    as (s' & Hrun & _ & Hwindow & _); [by left|].
  exists s'. split; assumption.
Defined.

Lemma finishRun_switch_failure_witness :
  exists s' cs,
    finishRun sampleBuilder emptyOptions [Some "T"] unfocusableSession
    = (Throw (switchToWindowFailed +:+ "no such window"), s')
    /\ extends unfocusableSession
         (CGetWindowHandle :: CCreateWindow "tab" :: CSwitchToWindow "w1" :: cs) s'
    /\ "w1" ∈ opened s'.
Proof.
  destruct (finishRun_switch_failure sampleBuilder emptyOptions [Some "T"]
              unfocusableSession "w1" "no such window")
    as (s' & cs & Hrun & Hext & _ & Hopen); [reflexivity|discriminate|by left|].
  exists s', cs. repeat split; assumption.
Defined.


Lemma analyze_callback_throwing_on_results_witness :
  exists s',
    analyze sampleNormalizeContext sampleLogOrRethrowError sampleBuilder emptyOptions 4
      (Some (fun _ _ => Fails "callback failed")) (sampleSession docTop' docBlank)
    = Some ({| promise := Pending;
               calls := [(None, Some "report"); (Some "callback failed", None)] |}, s').
Proof.
  exists (snd (analyzePromise sampleNormalizeContext sampleLogOrRethrowError
                 sampleBuilder emptyOptions 4 (sampleSession docTop' docBlank))).
  apply (analyze_callback_throwing_on_results sampleNormalizeContext
           sampleLogOrRethrowError sampleBuilder emptyOptions 4
           (sampleSession docTop' docBlank));
    [vm_compute; reflexivity|reflexivity].
Defined.

(** The sample page takes the script in every frame. *)
Ltac sample_injectable :=
  repeat first
    [ progress (cbv; intros)
    | apply List.Forall_nil
    | apply List.Forall_cons
    | split; [reflexivity|]
    | do 2 eexists; split; [reflexivity|]; split; [reflexivity|]
    | right; split; [reflexivity|]; eexists; split; [reflexivity|] ].

Lemma inject_returns_in_its_frame_witness :
  exists s',
    inject sampleLogOrRethrowError sampleBuilder 3 None (sampleSession docTop' docBlank)
    = (Ok tt, s')
    /\ browsingContext s' = []
    /\ sameSession (sampleSession docTop' docBlank) s'.
Proof.
  apply (inject_returns_in_its_frame sampleLogOrRethrowError sampleBuilder 3 3 None
           (sampleSession docTop' docBlank)
           (snd (setBrowsingContext None (sampleSession docTop' docBlank))));
    [lia|reflexivity|].
  sample_injectable.
Defined.

Lemma inject_throws_own_errors_or_rethrown_witness :
  f_execute docBroken (script sampleBuilder) = Fails "script error".
Proof.
  destruct (inject_throws_own_errors_or_rethrown sampleLogOrRethrowError sampleBuilder 1
              None (sampleSession docBroken docBlank) "script error"
              (snd (inject sampleLogOrRethrowError sampleBuilder 1 None
                      (sampleSession docBroken docBlank))) eq_refl)
    as [(el & Hel & _)|[[_ H]|[H|_]]]; [discriminate|discriminate H|exact H|reflexivity].
Defined.

Lemma injectChild_skips_missing_frame_witness :
  exists s',
    injectChild (fun _ => Returns tt) (inject (fun _ => Returns tt) sampleBuilder 1) 7
      (sampleSession docTop' docBlank)
    = (Ok tt, s')
    /\ browsingContext s' = [].
Proof.
  destruct (injectChild_skips_missing_frame (fun _ => Returns tt) sampleBuilder 0 7
              (sampleSession docTop' docBlank)) as (s' & Hrun & Hbc & _).
  - right. right. repeat split.
  - exists s'. split; assumption.
Defined.

Lemma injectChild_stays_in_failed_frame_witness :
  exists s',
    injectChild (fun _ => Returns tt) (inject (fun _ => Returns tt) sampleBuilder 1) 0
      (sampleSession docWithBroken docBlank)
    = (Ok tt, s')
    /\ path s' = [0].
Proof.
  destruct (injectChild_stays_in_failed_frame (fun _ => Returns tt) sampleBuilder 0 0
              docBroken "script error" (sampleSession docWithBroken docBlank))
    as (s' & Hrun & Hbc); try reflexivity.
  exists s'. split; [exact Hrun|]. unfold path. by rewrite Hbc.
Defined.
